(** * RAM calculation and infinite-loop check of [src/Script/RamCalculations.ts]

    A shallow embedding of the two synchronous functions the module
    exports, [getRamCalculationForKeys] and [checkInfiniteLoop], and the
    properties the specification states about them.  ([calculateRamUsage]
    only forwards to RamCalculationsAlt.)

    - JavaScript numbers are IEEE 754 binary64 values: the kernel's
      primitive [float], with its comparisons and its addition.
    - The imported tables [RamCosts] and [RamCostConstants]
      (Netscript/RamCostGenerator) are parameters.  An object of the
      catalog is its table of properties, own and inherited, as [in] and a
      property read see it; calling a callable value of the catalog
      returns a number or throws.
    - [acorn] and [acorn-walk] are external libraries: the syntax tree is
      an ESTree fragment, given together with the source text, and the
      walkers follow the [base] visitor table of [acorn-walk], with the
      callbacks of the source overriding it. *)

From Stdlib Require Import PrimFloat Floats ZArith String Ascii List Bool Lia.
From stdpp Require Import gmap strings.
Import ListNotations.

Set Warnings "-register-all,-inexact-float,-clear-no-such-hyp".
Local Open Scope string_scope.

(** ** Exceptions

    [key in x] throws a [TypeError] when [x] is not an object, and so does
    a property read on [undefined] or [null], or a built-in method called
    without a receiver.  The text of a message is the engine's own: only
    the class of the error is modelled. *)

Inductive JSError : Type :=
| TypeError (message : string).

Inductive Result (A : Type) : Type :=
| Ok (value : A)
| Throw (error : JSError).

Arguments Ok {A} value.
Arguments Throw {A} error.

Definition bind {A B : Type} (r : Result A) (k : A -> Result B) : Result B :=
  match r with
  | Ok a => k a
  | Throw e => Throw e
  end.

Declare Scope js_scope.
Delimit Scope js_scope with js.
Notation "'let*' x ':=' r 'in' k" := (bind r (fun x => k))
  (at level 10, x pattern, r at level 100, k at level 200) : js_scope.
Local Open Scope js_scope.

(** ** The syntax tree

    The node kinds of ESTree that the examples of the specification and
    the two walks need.  [start] is the offset of the node in the source
    text.  A function body brings statements back under an expression. *)

Inductive Expression : Type :=
| Literal (start : nat) (raw : string)
| Identifier (start : nat) (name : string)
| AwaitExpression (start : nat) (argument : Expression)
| UnaryExpression (start : nat) (operator : string) (argument : Expression)
| BinaryExpression (start : nat) (operator : string) (left right : Expression)
| CallExpression (start : nat) (callee : Expression) (arguments : list Expression)
| FunctionExpression (start : nat) (body : Statement)
with Statement : Type :=
| EmptyStatement (start : nat)
| ExpressionStatement (start : nat) (expression : Expression)
| BlockStatement (start : nat) (body : list Statement)
| IfStatement (start : nat) (test : Expression) (consequent : Statement)
    (alternate : option Statement)
| ReturnStatement (start : nat) (argument : option Expression)
| WhileStatement (start : nat) (test : Expression) (body : Statement)
| DoWhileStatement (start : nat) (body : Statement) (test : Expression)
| FunctionDeclaration (start : nat) (id : string) (body : Statement).

(** A [Program] node: the list of its top-level statements. *)
Definition Program : Type := list Statement.

(** [node.type === "Literal" && node.raw === "true"] *)
Definition nodeHasTrueTest (node : Expression) : bool :=
  match node with
  | Literal _ raw => String.eqb raw "true"
  | _ => false
  end.

(** The walk of [hasAwait]: [walk.recursive] with the single callback
    [AwaitExpression: () => { hasAwait = true }].  The flag is the captured
    variable, threaded through the walk; every other node kind follows the
    base visitor. *)
Fixpoint awaitExpression (node : Expression) (flag : bool) : bool :=
  match node with
  | Literal _ _ => flag
  | Identifier _ _ => flag
  | AwaitExpression _ _ => true
  | UnaryExpression _ _ argument => awaitExpression argument flag
  | BinaryExpression _ _ lhs rhs =>
      awaitExpression rhs (awaitExpression lhs flag)
  | CallExpression _ callee arguments =>
      fold_left (fun fl arg => awaitExpression arg fl) arguments
        (awaitExpression callee flag)
  | FunctionExpression _ body => awaitStatement body flag
  end
with awaitStatement (node : Statement) (flag : bool) : bool :=
  match node with
  | EmptyStatement _ => flag
  | ExpressionStatement _ expression => awaitExpression expression flag
  | BlockStatement _ body =>
      fold_left (fun fl stmt => awaitStatement stmt fl) body flag
  | IfStatement _ test consequent alternate =>
      let fl := awaitStatement consequent (awaitExpression test flag) in
      match alternate with
      | Some alt => awaitStatement alt fl
      | None => fl
      end
  | ReturnStatement _ argument =>
      match argument with
      | Some arg => awaitExpression arg flag
      | None => flag
      end
  | WhileStatement _ test body =>
      awaitStatement body (awaitExpression test flag)
  | DoWhileStatement _ body test =>
      awaitStatement body (awaitExpression test flag)
  | FunctionDeclaration _ _ body => awaitStatement body flag
  end.

Definition hasAwait (ast : Statement) : bool := awaitStatement ast false.

(** [(code.slice(0, node.start).match(/\n/g) || []).length + 1] *)
Definition LF : ascii := "010"%char.

Fixpoint slice0 (code : string) (stop : nat) : string :=
  match stop, code with
  | S n, String c rest => String c (slice0 rest n)
  | _, _ => EmptyString
  end.

Fixpoint countNewlines (s : string) : nat :=
  match s with
  | EmptyString => 0
  | String c rest =>
      if Ascii.eqb c LF then S (countNewlines rest) else countNewlines rest
  end.

Definition lineOf (code : string) (start : nat) : Z :=
  Z.of_nat (countNewlines (slice0 code start)) + 1.

(** The main walk.  The captured variable [missingAwaitLine] is the state.
    The [WhileStatement] callback replaces the base visitor: it either
    records the line of the loop, or walks the body (never the test). *)
Fixpoint walkExpression (code : string) (node : Expression)
    (missingAwaitLine : Z) : Z :=
  match node with
  | Literal _ _ => missingAwaitLine
  | Identifier _ _ => missingAwaitLine
  | AwaitExpression _ argument => walkExpression code argument missingAwaitLine
  | UnaryExpression _ _ argument => walkExpression code argument missingAwaitLine
  | BinaryExpression _ _ lhs rhs =>
      walkExpression code rhs (walkExpression code lhs missingAwaitLine)
  | CallExpression _ callee arguments =>
      fold_left (fun line arg => walkExpression code arg line) arguments
        (walkExpression code callee missingAwaitLine)
  | FunctionExpression _ body => walkStatement code body missingAwaitLine
  end
with walkStatement (code : string) (node : Statement)
    (missingAwaitLine : Z) : Z :=
  match node with
  | EmptyStatement _ => missingAwaitLine
  | ExpressionStatement _ expression =>
      walkExpression code expression missingAwaitLine
  | BlockStatement _ body =>
      fold_left (fun line stmt => walkStatement code stmt line) body
        missingAwaitLine
  | IfStatement _ test consequent alternate =>
      let line :=
        walkStatement code consequent
          (walkExpression code test missingAwaitLine) in
      match alternate with
      | Some alt => walkStatement code alt line
      | None => line
      end
  | ReturnStatement _ argument =>
      match argument with
      | Some arg => walkExpression code arg missingAwaitLine
      | None => missingAwaitLine
      end
  | WhileStatement start test body =>
      if nodeHasTrueTest test && negb (hasAwait node)
      then lineOf code start
      else walkStatement code body missingAwaitLine
  | DoWhileStatement _ body test =>
      walkStatement code body (walkExpression code test missingAwaitLine)
  | FunctionDeclaration _ _ body => walkStatement code body missingAwaitLine
  end.

(** [checkInfiniteLoop(code)]; [ast] is the tree that
    [parse(code, { sourceType: "module", ecmaVersion: "latest" })] returned
    (a [SyntaxError] of the parser propagates before the walk starts). *)
Definition checkInfiniteLoop (code : string) (ast : Program) : Z :=
  fold_left (fun line stmt => walkStatement code stmt line) ast (-1)%Z.

(** The start offsets of the loops that the main walk flags, in the order
    in which it meets them: literal-[true] loops without any [await] in
    their subtree, outside the body of a flagged loop and outside the test
    of a [while] loop (the callback walks neither). *)
Fixpoint flaggedExpression (node : Expression) : list nat :=
  match node with
  | Literal _ _ => []
  | Identifier _ _ => []
  | AwaitExpression _ argument => flaggedExpression argument
  | UnaryExpression _ _ argument => flaggedExpression argument
  | BinaryExpression _ _ lhs rhs =>
      flaggedExpression lhs ++ flaggedExpression rhs
  | CallExpression _ callee arguments =>
      flaggedExpression callee ++ flat_map flaggedExpression arguments
  | FunctionExpression _ body => flaggedStatement body
  end
with flaggedStatement (node : Statement) : list nat :=
  match node with
  | EmptyStatement _ => []
  | ExpressionStatement _ expression => flaggedExpression expression
  | BlockStatement _ body => flat_map flaggedStatement body
  | IfStatement _ test consequent alternate =>
      flaggedExpression test ++ flaggedStatement consequent ++
      match alternate with
      | Some alt => flaggedStatement alt
      | None => []
      end
  | ReturnStatement _ argument =>
      match argument with
      | Some arg => flaggedExpression arg
      | None => []
      end
  | WhileStatement start test body =>
      if nodeHasTrueTest test && negb (hasAwait node)
      then [start]
      else flaggedStatement body
  | DoWhileStatement _ body test =>
      flaggedExpression test ++ flaggedStatement body
  | FunctionDeclaration _ _ body => flaggedStatement body
  end.

Definition flaggedLoops (ast : Program) : list nat :=
  flat_map flaggedStatement ast.

(** Induction over the two mutually defined node types, with the
    hypothesis available for every element of a list of children. *)
Section NodeInduction.

Variable P : Expression -> Prop.
Variable Q : Statement -> Prop.

Hypothesis HLiteral : forall start raw, P (Literal start raw).
Hypothesis HIdentifier : forall start name, P (Identifier start name).
Hypothesis HAwait : forall start arg, P arg -> P (AwaitExpression start arg).
Hypothesis HUnary :
  forall start op arg, P arg -> P (UnaryExpression start op arg).
Hypothesis HBinary :
  forall start op lhs rhs,
    P lhs -> P rhs -> P (BinaryExpression start op lhs rhs).
Hypothesis HCall :
  forall start callee args,
    P callee -> Forall P args -> P (CallExpression start callee args).
Hypothesis HFunction :
  forall start body, Q body -> P (FunctionExpression start body).
Hypothesis HEmpty : forall start, Q (EmptyStatement start).
Hypothesis HExpression :
  forall start e, P e -> Q (ExpressionStatement start e).
Hypothesis HBlock :
  forall start body, Forall Q body -> Q (BlockStatement start body).
Hypothesis HIfElse :
  forall start test conseq alt,
    P test -> Q conseq -> Q alt -> Q (IfStatement start test conseq (Some alt)).
Hypothesis HIf :
  forall start test conseq,
    P test -> Q conseq -> Q (IfStatement start test conseq None).
Hypothesis HReturn :
  forall start arg, P arg -> Q (ReturnStatement start (Some arg)).
Hypothesis HReturnVoid : forall start, Q (ReturnStatement start None).
Hypothesis HWhile :
  forall start test body,
    P test -> Q body -> Q (WhileStatement start test body).
Hypothesis HDoWhile :
  forall start body test,
    Q body -> P test -> Q (DoWhileStatement start body test).
Hypothesis HDeclaration :
  forall start id body, Q body -> Q (FunctionDeclaration start id body).

Fixpoint expression_nodes_ind (e : Expression) : P e :=
  match e with
  | Literal start raw => HLiteral start raw
  | Identifier start name => HIdentifier start name
  | AwaitExpression start arg => HAwait start arg (expression_nodes_ind arg)
  | UnaryExpression start op arg =>
      HUnary start op arg (expression_nodes_ind arg)
  | BinaryExpression start op lhs rhs =>
      HBinary start op lhs rhs
        (expression_nodes_ind lhs) (expression_nodes_ind rhs)
  | CallExpression start callee args =>
      HCall start callee args (expression_nodes_ind callee)
        ((fix each (l : list Expression) : Forall P l :=
            match l with
            | [] => List.Forall_nil P
            | x :: rest => @List.Forall_cons _ _ x rest (expression_nodes_ind x) (each rest)
            end) args)
  | FunctionExpression start body =>
      HFunction start body (statement_nodes_ind body)
  end
with statement_nodes_ind (s : Statement) : Q s :=
  match s with
  | EmptyStatement start => HEmpty start
  | ExpressionStatement start e =>
      HExpression start e (expression_nodes_ind e)
  | BlockStatement start body =>
      HBlock start body
        ((fix each (l : list Statement) : Forall Q l :=
            match l with
            | [] => List.Forall_nil Q
            | x :: rest => @List.Forall_cons _ _ x rest (statement_nodes_ind x) (each rest)
            end) body)
  | IfStatement start test conseq (Some alt) =>
      HIfElse start test conseq alt (expression_nodes_ind test)
        (statement_nodes_ind conseq) (statement_nodes_ind alt)
  | IfStatement start test conseq None =>
      HIf start test conseq (expression_nodes_ind test)
        (statement_nodes_ind conseq)
  | ReturnStatement start (Some arg) =>
      HReturn start arg (expression_nodes_ind arg)
  | ReturnStatement start None => HReturnVoid start
  | WhileStatement start test body =>
      HWhile start test body (expression_nodes_ind test)
        (statement_nodes_ind body)
  | DoWhileStatement start body test =>
      HDoWhile start body test (statement_nodes_ind body)
        (expression_nodes_ind test)
  | FunctionDeclaration start id body =>
      HDeclaration start id body (statement_nodes_ind body)
  end.

End NodeInduction.

(** ** RAM usage entries *)

Module RamUsageEntry.
Inductive kind : Type := ns | dom | fn | misc.
Record t : Type := mk { type : kind; name : string; cost : float }.
End RamUsageEntry.

Module RamCalculation.
Record t : Type :=
  mk { cost : float; entries : option (list RamUsageEntry.t) }.
End RamCalculation.

(** The members of the enum [RamCostConstants] that the module reads. *)
Record RamCostConstantsT : Type := {
  ScriptBaseRamCost : float;
  ScriptHacknetNodesRamCost : float;
  ScriptDomRamCost : float;
  ScriptCorporationRamCost : float
}.

(** [entry.cost > 0] *)
Definition positive (entry : RamUsageEntry.t) : bool :=
  (0 <? RamUsageEntry.cost entry)%float.

(** [for (const entry of entries) totalRam += entry.cost] *)
Definition sumCosts (entries : list RamUsageEntry.t) : float :=
  fold_left (fun totalRam entry => (totalRam + RamUsageEntry.cost entry)%float)
    entries 0%float.

(** The keys of the input without their later repetitions. *)
Fixpoint firstOccurrences (keys : list string) : list string :=
  match keys with
  | [] => []
  | key :: rest =>
      key :: List.filter (fun k => negb (String.eqb k key))
               (firstOccurrences rest)
  end.

Section Aggregator.

(** The player object is opaque: it is only handed to the cost functions
    of the catalog. *)
Variable IPlayer : Type.

(** The values a property of the catalog can hold.  An object has a table
    of properties (own and inherited) and is callable or not.  A call
    [cost(player)] returns a number, as a cost function
    [(player: IPlayer) => number] does, or throws, as a method inherited
    from [Object.prototype] does when it is called without a receiver. *)
Inductive JSValue : Type :=
| JSUndefined
| JSNull
| JSBoolean (b : bool)
| JSNumber (n : float)
| JSString (s : string)
| JSObject (call : option (IPlayer -> Result float))
    (props : string -> option JSValue).

Definition typeof (v : JSValue) : string :=
  match v with
  | JSUndefined => "undefined"
  | JSNull => "object"
  | JSBoolean _ => "boolean"
  | JSNumber _ => "number"
  | JSString _ => "string"
  | JSObject (Some _) _ => "function"
  | JSObject None _ => "object"
  end.

(** [key in v] *)
Definition JSIn (key : string) (v : JSValue) : Result bool :=
  match v with
  | JSObject _ props =>
      Ok (match props key with Some _ => true | None => false end)
  | _ => Throw (TypeError "Cannot use 'in' operator to search for a key")
  end.

(** [v[key]]; the wrapper prototypes of primitive values are not
    modelled. *)
Definition JSGet (v : JSValue) (key : string) : Result JSValue :=
  match v with
  | JSObject _ props =>
      Ok (match props key with Some x => x | None => JSUndefined end)
  | JSUndefined | JSNull =>
      Throw (TypeError "Cannot read properties of undefined or null")
  | _ => Ok JSUndefined
  end.

Variable RamCostConstants : RamCostConstantsT.

(** The property table of the object [RamCosts]. *)
Variable RamCosts : string -> option JSValue.

(** [RamCosts[name]] *)
Definition RamCostsAt (name : string) : JSValue :=
  match RamCosts name with
  | Some v => v
  | None => JSUndefined
  end.

Definition namespaces : list string :=
  ["bladeburner"; "codingcontract"; "stanek"; "gang"; "sleeve"; "stock"; "ui"].

(** The [switch(key)] of the special keys. *)
Definition specialKey (key : string) : option RamUsageEntry.t :=
  if String.eqb key "hacknet" then
    Some (RamUsageEntry.mk RamUsageEntry.ns "hacknet"
            (ScriptHacknetNodesRamCost RamCostConstants))
  else if String.eqb key "document" then
    Some (RamUsageEntry.mk RamUsageEntry.dom "document"
            (ScriptDomRamCost RamCostConstants))
  else if String.eqb key "window" then
    Some (RamUsageEntry.mk RamUsageEntry.dom "window"
            (ScriptDomRamCost RamCostConstants))
  else if String.eqb key "corporation" then
    Some (RamUsageEntry.mk RamUsageEntry.ns "corporation"
            (ScriptCorporationRamCost RamCostConstants))
  else None.

(** The inner [for (const namespace of [...])] with its [break]:
    [Some (cost, name)] when a namespace has the key, [None] when the
    loop ends with [name] still [null]. *)
Fixpoint scanNamespaces (list : list string) (key : string)
    : Result (option (JSValue * string)) :=
  match list with
  | [] => Ok None
  | namespace :: rest =>
      let* found := JSIn key (RamCostsAt namespace) in
      if (found : bool) then
        let* cost := JSGet (RamCostsAt namespace) key in
        Ok (Some (cost, String.append namespace (String.append "." key)))
      else scanNamespaces rest key
  end.

(** [cost] and [name] as they stand after [if (name == null) {...}]. *)
Definition resolve (key : string) : Result (JSValue * string) :=
  let* found := scanNamespaces namespaces key in
  match found with
  | Some costName => Ok costName
  | None => Ok (RamCostsAt key, key)
  end.

(** [if (typeof cost === 'function') cost = cost(player);
     else if (typeof cost !== 'number') cost = 0;] *)
Definition evalCost (player : IPlayer) (cost : JSValue) : Result float :=
  match cost with
  | JSObject (Some f) _ => f player
  | JSNumber n => Ok n
  | _ => Ok 0%float
  end.

(** The variables the outer loop updates. *)
Record LoopState : Type :=
  mkState { entries : list RamUsageEntry.t; seen : gset string }.

(** One iteration of [for (const key of keys)]. *)
Definition loopBody (player : IPlayer) (st : LoopState) (key : string)
    : Result LoopState :=
  if bool_decide (key ∈ seen st) then Ok st
  else
    let seen' := seen st ∪ {[ key ]} in
    match specialKey key with
    | Some entry => Ok (mkState (entries st ++ [entry]) seen')
    | None =>
        let* (cost, name) := resolve key in
        let* cost := evalCost player cost in
        if (cost =? 0)%float then Ok (mkState (entries st) seen')
        else
          Ok (mkState (entries st ++ [RamUsageEntry.mk RamUsageEntry.fn name cost])
                seen')
    end.

Fixpoint forOf (player : IPlayer) (keys : list string) (st : LoopState)
    : Result LoopState :=
  match keys with
  | [] => Ok st
  | key :: rest =>
      let* st' := loopBody player st key in
      forOf player rest st'
  end.

(** [entries] starts as the base entry alone; after the loop it is
    filtered and summed. *)
Definition baseEntry : RamUsageEntry.t :=
  RamUsageEntry.mk RamUsageEntry.misc "baseCost"
    (ScriptBaseRamCost RamCostConstants).

Definition getRamCalculationForKeys (player : IPlayer) (keys : list string)
    : Result RamCalculation.t :=
  let* st := forOf player keys (mkState [baseEntry] ∅) in
  let filtered := List.filter positive (entries st) in
  let totalRam := sumCosts filtered in
  Ok (RamCalculation.mk totalRam (Some filtered)).

(** The shape of the catalog that the scan relies on: each of the seven
    namespaces is an object. *)
Definition isObject (v : JSValue) : bool :=
  match v with
  | JSObject _ _ => true
  | _ => false
  end.

Definition catalogShape : bool :=
  forallb (fun namespace => isObject (RamCostsAt namespace)) namespaces.

(** [key in RamCosts[namespace]], for a namespace that is an object. *)
Definition hasKey (key namespace : string) : bool :=
  match RamCostsAt namespace with
  | JSObject _ props =>
      match props key with Some _ => true | None => false end
  | _ => false
  end.

(** [RamCosts[namespace][key]], for a namespace that is an object. *)
Definition memberOf (namespace key : string) : JSValue :=
  match RamCostsAt namespace with
  | JSObject _ props =>
      match props key with Some v => v | None => JSUndefined end
  | _ => JSUndefined
  end.

(** The first namespace, in the order of the scan, that has the key. *)
Definition firstNamespace (key : string) : option string :=
  List.find (hasKey key) namespaces.

(** Two runs of the outer loop agree up to a key: both threw the same
    error, or they hold the same positive entries and the first has seen
    the key in addition. *)
Inductive agree (key : string) : Result LoopState -> Result LoopState -> Prop :=
| agree_Ok (a b : LoopState) :
    List.filter positive (entries a) = List.filter positive (entries b) ->
    seen a = seen b ∪ {[ key ]} ->
    agree key (Ok a) (Ok b)
| agree_Throw (e : JSError) : agree key (Throw e) (Throw e).

End Aggregator.

Arguments JSUndefined {IPlayer}.
Arguments JSNull {IPlayer}.
Arguments JSBoolean {IPlayer} b.
Arguments JSNumber {IPlayer} n.
Arguments JSString {IPlayer} s.
Arguments JSObject {IPlayer} call props.
Arguments typeof {IPlayer} v.
Arguments JSIn {IPlayer} key v.
Arguments JSGet {IPlayer} v key.
Arguments isObject {IPlayer} v.
Arguments evalCost {IPlayer} player cost.
Arguments RamCostsAt {IPlayer} RamCosts name.
Arguments scanNamespaces {IPlayer} RamCosts list key.
Arguments resolve {IPlayer} RamCosts key.
Arguments loopBody {IPlayer} RamCostConstants RamCosts player st key.
Arguments forOf {IPlayer} RamCostConstants RamCosts player keys st.
Arguments getRamCalculationForKeys {IPlayer} RamCostConstants RamCosts
  player keys.
Arguments catalogShape {IPlayer} RamCosts.
Arguments hasKey {IPlayer} RamCosts key namespace.
Arguments memberOf {IPlayer} RamCosts namespace key.
Arguments firstNamespace {IPlayer} RamCosts key.

(** ** Sample inputs

    Source texts with the trees acorn builds for them, and a small catalog
    in the shape of [RamCosts]. *)

Definition newline : string := String LF EmptyString.

Definition emptyLoopCode : string := "while(true){}".
Definition emptyLoopAst : Program :=
  [WhileStatement 0 (Literal 6 "true") (BlockStatement 11 [])].

Definition awaitCall (start callee : nat) : Statement :=
  ExpressionStatement start
    (AwaitExpression start
       (CallExpression callee (Identifier callee "f") [])).

Definition awaitLoopCode : string := "while(true){ await f(); }".
Definition awaitLoopAst : Program :=
  [WhileStatement 0 (Literal 6 "true") (BlockStatement 11 [awaitCall 13 19])].

Definition falseLoopCode : string := "while(false){}".
Definition falseLoopAst : Program :=
  [WhileStatement 0 (Literal 6 "false") (BlockStatement 12 [])].

(** Two unsafe loops, on lines 1 and 2. *)
Definition twoLoopsCode : string :=
  String.append "while(true){}" (String.append newline "while(true){}").
Definition twoLoopsAst : Program :=
  [WhileStatement 0 (Literal 6 "true") (BlockStatement 11 []);
   WhileStatement 14 (Literal 20 "true") (BlockStatement 25 [])].

(** An unsafe loop (line 2) inside a loop that awaits (line 1). *)
Definition nestedInSafeCode : string :=
  String.append "while(true){"
    (String.append newline
       (String.append " if (x) { while(true){} }"
          (String.append newline " await f(); }"))).
Definition nestedInSafeAst : Program :=
  [WhileStatement 0 (Literal 6 "true")
     (BlockStatement 11
        [IfStatement 14 (Identifier 18 "x")
           (BlockStatement 21
              [WhileStatement 23 (Literal 29 "true") (BlockStatement 34 [])])
           None;
         awaitCall 40 46])].

(** An unsafe loop (line 2) inside an unsafe loop (line 1). *)
Definition nestedInUnsafeCode : string :=
  String.append "while(true){" (String.append newline " while(true){} }").
Definition nestedInUnsafeAst : Program :=
  [WhileStatement 0 (Literal 6 "true")
     (BlockStatement 11
        [WhileStatement 14 (Literal 20 "true") (BlockStatement 25 [])])].

(** An unsafe loop on line 3, after two empty lines. *)
Definition shiftedLoopCode : string :=
  String.append newline (String.append newline "while(true){}").
Definition shiftedLoopAst : Program :=
  [WhileStatement 2 (Literal 8 "true") (BlockStatement 13 [])].

(** An unsafe loop inside the test of a loop:
    [while((function(){while(true){}})()){}]. *)
Definition loopInTestCode : string := "while((function(){while(true){}})()){}".
Definition loopInTestAst : Program :=
  [WhileStatement 0
     (CallExpression 6
        (FunctionExpression 7
           (BlockStatement 17
              [WhileStatement 18 (Literal 24 "true") (BlockStatement 29 [])]))
        [])
     (BlockStatement 36 [])].

(** A property table from a list of bindings; the first binding of a key
    is the one that counts. *)
Fixpoint table {V : Type} (bindings : list (string * V)) (key : string)
    : option V :=
  match bindings with
  | [] => None
  | (k, v) :: rest => if String.eqb key k then Some v else table rest key
  end.

(** The sample player: whether the discount of a cost function applies. *)
Definition SamplePlayer : Type := bool.

Definition plainObject (bindings : list (string * JSValue SamplePlayer))
    : JSValue SamplePlayer :=
  JSObject None (table bindings).

Definition costFunction (f : SamplePlayer -> float) : JSValue SamplePlayer :=
  JSObject (Some (fun player => Ok (f player))) (table []).

Definition sampleConstants : RamCostConstantsT :=
  {| ScriptBaseRamCost := 1.6;
     ScriptHacknetNodesRamCost := 4;
     ScriptDomRamCost := 25;
     ScriptCorporationRamCost := 1022.4 |}.

Definition sampleRamCosts : string -> option (JSValue SamplePlayer) :=
  table
    [("hack", JSNumber 0.1);
     ("sprintf", JSNumber 0);
     ("getServer", JSNumber 2);
     ("purchaseProgram",
        costFunction (fun discount => if discount then 2 else 32)%float);
     ("refund", costFunction (fun _ => (-1)%float));
     ("heart", plainObject [("break", JSNumber 0)]);
     ("label", JSString "none");
     ("bladeburner", plainObject [("getCityChaos", JSNumber 4)]);
     ("codingcontract", plainObject [("attempt", JSNumber 10)]);
     ("stanek", plainObject [("charge", JSNumber 0.4)]);
     ("gang",
        plainObject [("getInformation", JSNumber 2);
                     ("getMemberNames", JSNumber 1)]);
     ("sleeve",
        plainObject [("getInformation", JSNumber 4);
                     ("travel", costFunction (fun _ => 4%float))]);
     ("stock", plainObject [("buy", JSNumber 2.5)]);
     ("ui", plainObject [("getTheme", JSNumber 0)])].

(** The members that an object literal inherits from [Object.prototype],
    as far as the samples go: [valueOf] and [hasOwnProperty] start with
    [ToObject(this)], which throws for the missing receiver of a plain
    call. *)
Definition receiverMethod : JSValue SamplePlayer :=
  JSObject
    (Some (fun _ => Throw (TypeError "Cannot convert undefined or null to object")))
    (table []).

Definition objectPrototype (key : string) : option (JSValue SamplePlayer) :=
  table [("valueOf", receiverMethod); ("hasOwnProperty", receiverMethod)] key.

(** An object literal: its own bindings first, then the inherited ones. *)
Definition objectLiteral (bindings : list (string * JSValue SamplePlayer))
    : JSValue SamplePlayer :=
  JSObject None
    (fun key =>
       match table bindings key with
       | Some v => Some v
       | None => objectPrototype key
       end).

(** A catalog written with object literals, all seven namespaces in place. *)
Definition literalRamCosts : string -> option (JSValue SamplePlayer) :=
  fun key =>
    match
      table
        [("hack", JSNumber 0.1);
         ("bladeburner", objectLiteral [("getCityChaos", JSNumber 4)]);
         ("codingcontract", objectLiteral [("attempt", JSNumber 10)]);
         ("stanek", objectLiteral [("charge", JSNumber 0.4)]);
         ("gang", objectLiteral [("getMemberNames", JSNumber 1)]);
         ("sleeve", objectLiteral [("travel", JSNumber 4)]);
         ("stock", objectLiteral [("buy", JSNumber 2.5)]);
         ("ui", objectLiteral [("getTheme", JSNumber 0)])]
        key
    with
    | Some v => Some v
    | None => objectPrototype key
    end.

(** [while(true){] newline [}]: the only newline comes after the start of
    the loop. *)
Definition trailingNewlineCode : string :=
  String.append "while(true){" (String.append newline "}").
Definition trailingNewlineAst : Program :=
  [WhileStatement 0 (Literal 6 "true") (BlockStatement 11 [])].

(** [while(1){}]: a test that is always truthy but not the literal [true]. *)
Definition numberTestCode : string := "while(1){}".
Definition numberTestAst : Program :=
  [WhileStatement 0 (Literal 6 "1") (BlockStatement 8 [])].

(** ** Reference definitions for the further properties *)

(** Whether an [await] expression occurs somewhere under a node, function
    bodies and inner loops included. *)
Fixpoint containsAwaitExpression (node : Expression) : bool :=
  match node with
  | Literal _ _ => false
  | Identifier _ _ => false
  | AwaitExpression _ _ => true
  | UnaryExpression _ _ argument => containsAwaitExpression argument
  | BinaryExpression _ _ lhs rhs =>
      containsAwaitExpression lhs || containsAwaitExpression rhs
  | CallExpression _ callee arguments =>
      containsAwaitExpression callee
      || existsb containsAwaitExpression arguments
  | FunctionExpression _ body => containsAwaitStatement body
  end
with containsAwaitStatement (node : Statement) : bool :=
  match node with
  | EmptyStatement _ => false
  | ExpressionStatement _ expression => containsAwaitExpression expression
  | BlockStatement _ body => existsb containsAwaitStatement body
  | IfStatement _ test consequent alternate =>
      containsAwaitExpression test || containsAwaitStatement consequent
      || match alternate with
         | Some alt => containsAwaitStatement alt
         | None => false
         end
  | ReturnStatement _ argument =>
      match argument with
      | Some arg => containsAwaitExpression arg
      | None => false
      end
  | WhileStatement _ test body =>
      containsAwaitExpression test || containsAwaitStatement body
  | DoWhileStatement _ body test =>
      containsAwaitExpression test || containsAwaitStatement body
  | FunctionDeclaration _ _ body => containsAwaitStatement body
  end.

(** Whether no [WhileStatement] node occurs under a node. *)
Fixpoint whileFreeExpression (node : Expression) : bool :=
  match node with
  | Literal _ _ => true
  | Identifier _ _ => true
  | AwaitExpression _ argument => whileFreeExpression argument
  | UnaryExpression _ _ argument => whileFreeExpression argument
  | BinaryExpression _ _ lhs rhs =>
      whileFreeExpression lhs && whileFreeExpression rhs
  | CallExpression _ callee arguments =>
      whileFreeExpression callee && forallb whileFreeExpression arguments
  | FunctionExpression _ body => whileFreeStatement body
  end
with whileFreeStatement (node : Statement) : bool :=
  match node with
  | EmptyStatement _ => true
  | ExpressionStatement _ expression => whileFreeExpression expression
  | BlockStatement _ body => forallb whileFreeStatement body
  | IfStatement _ test consequent alternate =>
      whileFreeExpression test && whileFreeStatement consequent
      && match alternate with
         | Some alt => whileFreeStatement alt
         | None => true
         end
  | ReturnStatement _ argument =>
      match argument with
      | Some arg => whileFreeExpression arg
      | None => true
      end
  | WhileStatement _ _ _ => false
  | DoWhileStatement _ body test =>
      whileFreeExpression test && whileFreeStatement body
  | FunctionDeclaration _ _ body => whileFreeStatement body
  end.

(** [do{}while(true)]: a loop that never awaits, of the other kind. *)
Definition doWhileCode : string := "do{}while(true)".
Definition doWhileAst : Program :=
  [DoWhileStatement 0 (BlockStatement 2 []) (Literal 10 "true")].

(** What one iteration of the outer loop pushes for a key it has not seen,
    when it does not throw. *)
Definition contribution {IPlayer : Type} (C : RamCostConstantsT)
    (RamCosts : string -> option (JSValue IPlayer)) (player : IPlayer)
    (key : string) : list RamUsageEntry.t :=
  match specialKey C key with
  | Some entry => [entry]
  | None =>
      match resolve RamCosts key with
      | Ok (cost, name) =>
          match evalCost player cost with
          | Ok cost =>
              if (cost =? 0)%float then []
              else [RamUsageEntry.mk RamUsageEntry.fn name cost]
          | Throw _ => []
          end
      | Throw _ => []
      end
  end.

(** Whether a key is one of the cases of the [switch]. *)
Definition isSpecial (C : RamCostConstantsT) (key : string) : bool :=
  match specialKey C key with
  | Some _ => true
  | None => false
  end.

(** A catalog with only its first two namespaces. *)
Definition partialRamCosts : string -> option (JSValue SamplePlayer) :=
  table
    [("hack", JSNumber 0.1);
     ("bladeburner", plainObject [("getCityChaos", JSNumber 4)]);
     ("codingcontract", plainObject [("attempt", JSNumber 10)])].

(** * Properties *)

(** ** Sanity checks of the sample inputs *)

Example sample_offsets :
  substring 14 5 twoLoopsCode = "while"
  /\ substring 23 5 nestedInSafeCode = "while"
  /\ substring 40 5 nestedInSafeCode = "await"
  /\ substring 14 5 nestedInUnsafeCode = "while"
  /\ substring 2 5 shiftedLoopCode = "while"
  /\ substring 18 5 loopInTestCode = "while".
Proof. repeat split. Qed.

Example further_sample_offsets :
  substring 0 5 trailingNewlineCode = "while"
  /\ substring 6 4 trailingNewlineCode = "true"
  /\ substring 6 1 numberTestCode = "1"
  /\ substring 0 2 doWhileCode = "do".
Proof. repeat split. Qed.

(** The callback never walks the test of a loop: a loop inside it is not
    reached. *)
Example loop_in_test_not_reached :
  flaggedLoops loopInTestAst = []
  /\ checkInfiniteLoop loopInTestCode loopInTestAst = (-1)%Z.
Proof. split; reflexivity. Qed.

Example sample_gang_first :
  getRamCalculationForKeys sampleConstants sampleRamCosts
    true ["getInformation"; "hack"; "purchaseProgram"; "hack"]
  = Ok (RamCalculation.mk (1.6 + 2 + 0.1 + 2)%float
          (Some [RamUsageEntry.mk RamUsageEntry.misc "baseCost" 1.6;
                 RamUsageEntry.mk RamUsageEntry.fn "gang.getInformation" 2;
                 RamUsageEntry.mk RamUsageEntry.fn "hack" 0.1;
                 RamUsageEntry.mk RamUsageEntry.fn "purchaseProgram" 2])).
Proof. vm_compute. reflexivity. Qed.

(** ** The loop check *)

Lemma last_default_irrelevant {A : Type} (l : list A) (x d d' : A) :
  List.last (x :: l) d = List.last (x :: l) d'.
Proof.
  revert x; induction l as [|y l IH]; intros x; [reflexivity|].
  change (List.last (y :: l) d = List.last (y :: l) d'). apply IH.
Qed.

Lemma last_app_write {A : Type} (l1 l2 : list A) (d : A) :
  List.last (l1 ++ l2) d = List.last l2 (List.last l1 d).
Proof.
  revert d; induction l1 as [|x l1 IH]; intros d; [reflexivity|].
  destruct l1 as [|y l1].
  - destruct l2 as [|z l2]; [reflexivity|].
    change (List.last (z :: l2) d = List.last (z :: l2) x).
    apply last_default_irrelevant.
  - change (List.last ((y :: l1) ++ l2) d = List.last l2 (List.last (y :: l1) d)).
    apply IH.
Qed.

(** Threading the recorded line through a list of children keeps the last
    write of the last child that wrote. *)
Lemma fold_children_last {N : Type} (code : string)
    (walk : N -> Z -> Z) (flagged : N -> list nat) (children : list N) :
  Forall (fun child => forall line,
            walk child line = List.last (map (lineOf code) (flagged child)) line)
         children ->
  forall line,
    fold_left (fun l child => walk child l) children line
    = List.last (map (lineOf code) (flat_map flagged children)) line.
Proof.
  induction 1 as [|child rest Hchild _ IH]; intros line; [reflexivity|].
  simpl. rewrite IH, Hchild, map_app, last_app_write. reflexivity.
Qed.

Ltac rewrite_children :=
  repeat match goal with
         | H : forall line : Z, _ = _ |- _ => rewrite H
         | H : Forall _ _ |- _ => erewrite fold_children_last by exact H
         end.

Ltac solve_node :=
  intros; simpl;
  try match goal with
      | |- context [if ?flagged then _ else _] => destruct flagged
      end;
  rewrite ?app_nil_r, ?map_app, ?last_app_write;
  rewrite_children; reflexivity.

Lemma walk_last_flagged (code : string) :
  (forall e line,
      walkExpression code e line
      = List.last (map (lineOf code) (flaggedExpression e)) line)
  /\ (forall s line,
        walkStatement code s line
        = List.last (map (lineOf code) (flaggedStatement s)) line).
Proof.
  split.
  - apply (expression_nodes_ind
      (fun e => forall line, walkExpression code e line
         = List.last (map (lineOf code) (flaggedExpression e)) line)
      (fun s => forall line, walkStatement code s line
         = List.last (map (lineOf code) (flaggedStatement s)) line));
    solve_node.
  - apply (statement_nodes_ind
      (fun e => forall line, walkExpression code e line
         = List.last (map (lineOf code) (flaggedExpression e)) line)
      (fun s => forall line, walkStatement code s line
         = List.last (map (lineOf code) (flaggedStatement s)) line));
    solve_node.
Qed.

(** C1, as stated, at an explicit input.  The program has two unsafe loops,
    both met by the walk, on lines 1 and 2; the first one in traversal
    order is on line 1, and [checkInfiniteLoop] returns 2. *)
Lemma checkInfiniteLoop_first_unsafe_loop_not_reported :
  flaggedLoops twoLoopsAst = [0; 14]
  /\ lineOf twoLoopsCode 0 = 1%Z
  /\ lineOf twoLoopsCode 14 = 2%Z
  /\ checkInfiniteLoop twoLoopsCode twoLoopsAst = 2%Z
  /\ checkInfiniteLoop twoLoopsCode twoLoopsAst <> lineOf twoLoopsCode 0.
Proof. repeat split. discriminate. Qed.

(** C1 (amended).  Every flagged loop overwrites the recorded line, so for
    every source text and tree [checkInfiniteLoop] returns the line of the
    last loop that the walk flags, in traversal order, and the sentinel -1
    when it flags none. *)
Theorem checkInfiniteLoop_reports_last_flagged :
  forall (code : string) (ast : Program),
    checkInfiniteLoop code ast
    = List.last (map (lineOf code) (flaggedLoops ast)) (-1)%Z.
Proof.
  intros code ast. unfold checkInfiniteLoop, flaggedLoops.
  apply fold_children_last.
  apply List.Forall_forall. intros stmt _.
  apply (proj2 (walk_last_flagged code)).
Qed.


Lemma slice0_prefix (prefix rest : string) :
  slice0 (String.append prefix rest) (String.length prefix) = prefix.
Proof.
  induction prefix as [|c prefix IH]; simpl.
  - destruct rest; reflexivity.
  - rewrite IH. reflexivity.
Qed.

Lemma not_literal_true (test : Expression) :
  (forall testStart, test <> Literal testStart "true") ->
  nodeHasTrueTest test = false.
Proof.
  intros Hnot. destruct test as [start raw| | | | | |]; try reflexivity.
  simpl. destruct (String.eqb_spec raw "true") as [->|_]; [|reflexivity].
  destruct (Hnot start eq_refl).
Qed.

(** C3.  [while(true){}] gives line 1, [while(true){ await f(); }] and
    [while(false){}] give the sentinel -1.  In general, for a program that
    is one loop: a test other than the literal [true] never condemns the
    loop, whose body is then walked as if it stood alone ([while(1){}]
    gives -1); a literal-[true] loop with an [await] under it is walked in
    the same way; a literal-[true] loop without any [await] is reported
    with one more than the number of newline characters of the text
    before its start offset, whatever the text from that offset on holds
    (line 3 after two empty lines, line 1 when the only newline comes
    after the start). *)
Theorem checkInfiniteLoop_specification_cases :
  checkInfiniteLoop emptyLoopCode emptyLoopAst = 1%Z
  /\ checkInfiniteLoop awaitLoopCode awaitLoopAst = (-1)%Z
  /\ checkInfiniteLoop falseLoopCode falseLoopAst = (-1)%Z
  /\ checkInfiniteLoop numberTestCode numberTestAst = (-1)%Z
  /\ checkInfiniteLoop shiftedLoopCode shiftedLoopAst = 3%Z
  /\ checkInfiniteLoop trailingNewlineCode trailingNewlineAst = 1%Z
  /\ (forall code start test body,
        (forall testStart, test <> Literal testStart "true") ->
        checkInfiniteLoop code [WhileStatement start test body]
        = checkInfiniteLoop code [body])
  /\ (forall code start testStart body,
        hasAwait body = true ->
        checkInfiniteLoop code
          [WhileStatement start (Literal testStart "true") body]
        = checkInfiniteLoop code [body])
  /\ (forall prefix rest testStart body,
        hasAwait body = false ->
        checkInfiniteLoop (String.append prefix rest)
          [WhileStatement (String.length prefix) (Literal testStart "true")
             body]
        = (Z.of_nat (countNewlines prefix) + 1)%Z).
Proof.
  do 6 (split; [reflexivity|]). split; [|split].
  - intros code start test body Hnot.
    unfold checkInfiniteLoop. cbn [fold_left walkStatement].
    rewrite (not_literal_true test Hnot). reflexivity.
  - intros code start testStart body Hawait.
    unfold checkInfiniteLoop. cbn [fold_left walkStatement nodeHasTrueTest].
    change ("true" =? "true")%string with true.
    change (hasAwait (WhileStatement start (Literal testStart "true") body))
      with (hasAwait body).
    rewrite Hawait. reflexivity.
  - intros prefix rest testStart body Hawait.
    unfold checkInfiniteLoop. cbn [fold_left walkStatement nodeHasTrueTest].
    change ("true" =? "true")%string with true.
    change (hasAwait (WhileStatement (String.length prefix)
                        (Literal testStart "true") body))
      with (hasAwait body).
    rewrite Hawait. cbn [negb andb]. unfold lineOf.
    rewrite slice0_prefix. reflexivity.
Qed.

(** ** The cost aggregator *)

(** A value that is at most zero fails [cost > 0]. *)
Lemma nonpositive_not_positive (x : float) :
  (x <=? 0)%float = true -> (0 <? x)%float = false.
Proof.
  rewrite leb_spec, ltb_spec.
  change (Prim2SF 0) with (S754_zero false).
  unfold SFleb, SFltb.
  destruct (Prim2SF x) as [s| s | |s m e]; simpl; try reflexivity;
    destruct s; simpl; congruence.
Qed.

Lemma bind_Ok_inv {A B : Type} (r : Result A) (k : A -> Result B) (b : B) :
  bind r k = Ok b -> exists a, r = Ok a /\ k a = Ok b.
Proof. destruct r as [a|e]; simpl; [eauto | discriminate]. Qed.

Section AggregatorFacts.

Context {IPlayer : Type}.
Variable RamCostConstants : RamCostConstantsT.
Variable RamCosts : string -> option (JSValue IPlayer).

Local Abbreviation loopBody := (loopBody RamCostConstants RamCosts).
Local Abbreviation forOf := (forOf RamCostConstants RamCosts).
Local Abbreviation getRamCalculationForKeys :=
  (getRamCalculationForKeys RamCostConstants RamCosts).
Local Abbreviation specialKey := (specialKey RamCostConstants).
Local Abbreviation resolve := (resolve RamCosts).

(** *** The set of seen keys *)

Lemma loopBody_seen player st key :
  key ∈ seen st -> loopBody player st key = Ok st.
Proof.
  intros Hin. unfold loopBody.
  rewrite bool_decide_eq_true_2 by exact Hin. reflexivity.
Qed.

Lemma loopBody_unseen player st key :
  key ∉ seen st ->
  loopBody player st key
  = match specialKey key with
    | Some entry => Ok (mkState (entries st ++ [entry]) (seen st ∪ {[ key ]}))
    | None =>
        let* (cost, name) := resolve key in
        let* cost := evalCost player cost in
        if (cost =? 0)%float
        then Ok (mkState (entries st) (seen st ∪ {[ key ]}))
        else Ok (mkState
                   (entries st ++ [RamUsageEntry.mk RamUsageEntry.fn name cost])
                   (seen st ∪ {[ key ]}))
    end.
Proof.
  intros Hnin. unfold loopBody.
  rewrite bool_decide_eq_false_2 by exact Hnin. reflexivity.
Qed.

Lemma loopBody_grows player st key st' :
  loopBody player st key = Ok st' ->
  key ∈ seen st' /\ seen st ⊆ seen st'.
Proof.
  destruct (decide (key ∈ seen st)) as [Hin|Hnin].
  - rewrite loopBody_seen by exact Hin. intros [= <-]. split; [exact Hin|done].
  - rewrite loopBody_unseen by exact Hnin.
    destruct (specialKey key) as [entry|].
    + intros [= <-]. simpl. set_solver.
    + intros Hb. apply bind_Ok_inv in Hb as [[cost name] [_ Hb]].
      apply bind_Ok_inv in Hb as [c [_ Hb]].
      destruct (c =? 0)%float; injection Hb as <-; simpl; set_solver.
Qed.

Lemma forOf_app player l1 l2 st :
  forOf player (l1 ++ l2) st = bind (forOf player l1 st) (forOf player l2).
Proof.
  revert st; induction l1 as [|key l1 IH]; intros st; [reflexivity|].
  simpl. destruct (loopBody player st key) as [st'|e]; simpl; [apply IH|reflexivity].
Qed.

(** A key that was seen is skipped wherever it comes back. *)
Lemma forOf_skip_seen player key l :
  forall st,
    key ∈ seen st ->
    forOf player (List.filter (fun k => negb (String.eqb k key)) l) st
    = forOf player l st.
Proof.
  induction l as [|k l IH]; intros st Hin; [reflexivity|].
  simpl. destruct (String.eqb_spec k key) as [->|Hne]; simpl.
  - rewrite (loopBody_seen player st key Hin). simpl. apply IH, Hin.
  - destruct (loopBody player st k) as [st'|e] eqn:Hstep; simpl; [|reflexivity].
    apply IH. apply loopBody_grows in Hstep as [_ Hsub]. set_solver.
Qed.

Lemma forOf_firstOccurrences player keys :
  forall st,
    forOf player (firstOccurrences keys) st = forOf player keys st.
Proof.
  induction keys as [|key rest IH]; intros st; [reflexivity|].
  simpl. destruct (loopBody player st key) as [st'|e] eqn:Hstep; simpl;
    [|reflexivity].
  apply loopBody_grows in Hstep as [Hin _].
  rewrite forOf_skip_seen by exact Hin. apply IH.
Qed.

(** *** The returned record *)

Lemma getRamCalculationForKeys_Ok player keys r :
  getRamCalculationForKeys player keys = Ok r ->
  exists st,
    forOf player keys (mkState [baseEntry RamCostConstants] ∅) = Ok st
    /\ r = RamCalculation.mk
             (sumCosts (List.filter positive (entries st)))
             (Some (List.filter positive (entries st))).
Proof.
  unfold getRamCalculationForKeys. intros Hr.
  apply bind_Ok_inv in Hr as [st [Hst Hr]].
  exists st. split; [exact Hst|]. simpl in Hr. congruence.
Qed.

Lemma result_invariants player keys r :
  getRamCalculationForKeys player keys = Ok r ->
  exists kept,
    RamCalculation.entries r = Some kept
    /\ RamCalculation.cost r = sumCosts kept
    /\ Forall (fun entry => (0 <? RamUsageEntry.cost entry)%float = true) kept.
Proof.
  intros Hr. apply getRamCalculationForKeys_Ok in Hr as [st [_ ->]].
  eexists. split; [reflexivity|]. split; [reflexivity|].
  apply List.Forall_forall. intros entry Hin.
  apply List.filter_In in Hin as [_ Hpos]. exact Hpos.
Qed.

(** *** The scan of the namespaces *)

Lemma scanNamespaces_find key list :
  forallb (fun namespace => isObject (RamCostsAt RamCosts namespace)) list = true ->
  scanNamespaces RamCosts list key
  = Ok (match List.find (hasKey RamCosts key) list with
        | Some namespace =>
            Some (memberOf RamCosts namespace key,
                  String.append namespace (String.append "." key))
        | None => None
        end).
Proof.
  induction list as [|namespace rest IH]; intros Hshape; [reflexivity|].
  simpl in Hshape. apply andb_true_iff in Hshape as [Hobj Hrest].
  cbn [scanNamespaces List.find]. unfold hasKey at 1.
  destruct (RamCostsAt RamCosts namespace) as [| | | | |call props] eqn:Hns;
    try discriminate Hobj.
  simpl. destruct (props key) as [v|] eqn:Hkey; simpl.
  - unfold memberOf. rewrite Hns, Hkey. reflexivity.
  - apply IH, Hrest.
Qed.

(** *** Keys that leave no positive entry

    [key] is not special and its cost evaluates to a value that fails
    [cost > 0].  Two runs agree when they kept the same positive entries
    and the first has seen [key] in addition. *)

Lemma loopBody_agree player key v name c a b k :
  specialKey key = None ->
  resolve key = Ok (v, name) ->
  evalCost player v = Ok c ->
  (0 <? c)%float = false ->
  agree key (Ok a) (Ok b) ->
  agree key (loopBody player a k) (loopBody player b k).
Proof.
  intros Hspecial Hresolve Heval Hcost Hab.
  inversion Hab as [a0 b0 Hentries Hseen|]; subst.
  destruct (decide (k = key)) as [->|Hne].
  - rewrite (loopBody_seen player a key) by (rewrite Hseen; set_solver).
    destruct (decide (key ∈ seen b)) as [Hin|Hnin].
    + rewrite (loopBody_seen player b key Hin). exact Hab.
    + rewrite (loopBody_unseen player b key Hnin), Hspecial, Hresolve.
      cbn [bind]. rewrite Heval. cbn [bind].
      destruct (c =? 0)%float; constructor; simpl.
      * exact Hentries.
      * rewrite Hseen. set_solver.
      * rewrite List.filter_app. simpl. unfold positive at 3. simpl.
        rewrite Hcost, app_nil_r. exact Hentries.
      * rewrite Hseen. set_solver.
  - destruct (decide (k ∈ seen b)) as [Hin|Hnin].
    + rewrite (loopBody_seen player b k Hin).
      rewrite (loopBody_seen player a k) by (rewrite Hseen; set_solver).
      exact Hab.
    + rewrite (loopBody_unseen player b k Hnin).
      rewrite (loopBody_unseen player a k) by (rewrite Hseen; set_solver).
      destruct (specialKey k) as [entry|].
      * constructor; simpl.
        -- rewrite !List.filter_app. congruence.
        -- rewrite Hseen. set_solver.
      * destruct (resolve k) as [[cost nm]|e]; cbn [bind]; [|constructor].
        destruct (evalCost player cost) as [ck|e]; cbn [bind]; [|constructor].
        destruct (ck =? 0)%float; constructor; simpl.
        -- exact Hentries.
        -- rewrite Hseen. set_solver.
        -- rewrite !List.filter_app. congruence.
        -- rewrite Hseen. set_solver.
Qed.

Lemma forOf_agree player key v name c keys :
  specialKey key = None ->
  resolve key = Ok (v, name) ->
  evalCost player v = Ok c ->
  (0 <? c)%float = false ->
  forall ra rb,
    agree key ra rb ->
    agree key (bind ra (forOf player keys)) (bind rb (forOf player keys)).
Proof.
  intros Hspecial Hresolve Heval Hcost.
  induction keys as [|k rest IH]; intros ra rb Hab.
  - destruct Hab; simpl; constructor; assumption.
  - destruct Hab as [a b Hentries Hseen|e]; simpl; [|constructor].
    apply IH.
    apply (loopBody_agree player key v name c a b k); try assumption.
    constructor; assumption.
Qed.

Lemma agree_finish key ra rb :
  agree key ra rb ->
  bind ra (fun st =>
    Ok (RamCalculation.mk
          (sumCosts (List.filter positive (entries st)))
          (Some (List.filter positive (entries st)))))
  = bind rb (fun st =>
      Ok (RamCalculation.mk
            (sumCosts (List.filter positive (entries st)))
            (Some (List.filter positive (entries st))))).
Proof.
  intros [a b Hentries _|e]; simpl; [rewrite Hentries|]; reflexivity.
Qed.

Lemma silent_key_removed player key v name c before after :
  specialKey key = None ->
  resolve key = Ok (v, name) ->
  evalCost player v = Ok c ->
  (0 <? c)%float = false ->
  getRamCalculationForKeys player (before ++ key :: after)
  = getRamCalculationForKeys player (before ++ after).
Proof.
  intros Hspecial Hresolve Heval Hcost.
  unfold getRamCalculationForKeys. rewrite !forOf_app.
  destruct (forOf player before _) as [st|e]; [|reflexivity].
  apply (agree_finish key).
  apply (forOf_agree player key v name c after Hspecial Hresolve Heval Hcost
           (loopBody player st key) (Ok st)).
  destruct (decide (key ∈ seen st)) as [Hin|Hnin].
  - rewrite (loopBody_seen player st key Hin).
    constructor; [reflexivity|set_solver].
  - rewrite (loopBody_unseen player st key Hnin), Hspecial, Hresolve.
    cbn [bind]. rewrite Heval. cbn [bind].
    destruct (c =? 0)%float; constructor; simpl; try reflexivity.
    rewrite List.filter_app. simpl. unfold positive at 2. simpl.
    rewrite Hcost, app_nil_r. reflexivity.
Qed.

End AggregatorFacts.

Lemma firstOccurrences_In (keys : list string) (k : string) :
  In k (firstOccurrences keys) <-> In k keys.
Proof.
  induction keys as [|key rest IH]; simpl; [reflexivity|].
  rewrite List.filter_In, IH.
  destruct (String.eqb_spec k key) as [->|Hne]; simpl.
  - split; [intros [?|[? ?]]; auto | auto].
  - split.
    + intros [?|[? _]]; auto.
    + intros [?|?]; [left; assumption | right; split; [assumption|reflexivity]].
Qed.

Lemma firstOccurrences_NoDup (keys : list string) :
  List.NoDup (firstOccurrences keys).
Proof.
  induction keys as [|key rest IH]; simpl; constructor.
  - rewrite List.filter_In. intros [_ Hneq].
    rewrite String.eqb_refl in Hneq. discriminate.
  - apply List.NoDup_filter, IH.
Qed.

Lemma single_key_run {IPlayer : Type} (C : RamCostConstantsT)
    (RamCosts : string -> option (JSValue IPlayer)) (player : IPlayer)
    (key : string) :
  forOf C RamCosts player [key] (mkState [baseEntry C] ∅)
  = loopBody C RamCosts player (mkState [baseEntry C] ∅) key.
Proof.
  simpl. destruct (loopBody _ _ _ _ _); reflexivity.
Qed.

Lemma scanNamespaces_first_hit {IPlayer : Type}
    (RamCosts : string -> option (JSValue IPlayer)) (key namespace : string)
    (before after : list string) :
  (forall other, In other before ->
                 isObject (RamCostsAt RamCosts other) = true
                 /\ hasKey RamCosts key other = false) ->
  hasKey RamCosts key namespace = true ->
  scanNamespaces RamCosts (before ++ namespace :: after) key
  = Ok (Some (memberOf RamCosts namespace key,
              String.append namespace (String.append "." key))).
Proof.
  intros Hbefore Hhit.
  induction before as [|other before IH]; cbn [app scanNamespaces].
  - unfold hasKey in Hhit. unfold memberOf.
    destruct (RamCostsAt RamCosts namespace) as [| | | | |call props];
      try discriminate Hhit.
    simpl. destruct (props key); [reflexivity | discriminate Hhit].
  - destruct (Hbefore other (or_introl eq_refl)) as [Hobject Hmiss].
    unfold hasKey in Hmiss.
    destruct (RamCostsAt RamCosts other) as [| | | | |call props];
      try discriminate Hobject.
    simpl. destruct (props key); [discriminate Hmiss|].
    apply IH. intros o Ho. apply Hbefore. right. exact Ho.
Qed.

Lemma scanNamespaces_all_miss {IPlayer : Type}
    (RamCosts : string -> option (JSValue IPlayer)) (key : string)
    (list : list string) :
  (forall other, In other list ->
                 isObject (RamCostsAt RamCosts other) = true
                 /\ hasKey RamCosts key other = false) ->
  scanNamespaces RamCosts list key = Ok None.
Proof.
  induction list as [|other rest IH]; intros Hall; [reflexivity|].
  cbn [scanNamespaces].
  destruct (Hall other (or_introl eq_refl)) as [Hobject Hmiss].
  unfold hasKey in Hmiss.
  destruct (RamCostsAt RamCosts other) as [| | | | |call props];
    try discriminate Hobject.
  simpl. destruct (props key); [discriminate Hmiss|].
  apply IH. intros o Ho. apply Hall. right. exact Ho.
Qed.

Lemma scanNamespaces_result {IPlayer : Type}
    (RamCosts : string -> option (JSValue IPlayer)) (key : string)
    (list : list string) :
  forall found,
    scanNamespaces RamCosts list key = Ok found ->
    match found with
    | Some (cost, name) =>
        exists namespace,
          In namespace list
          /\ hasKey RamCosts key namespace = true
          /\ name = String.append namespace (String.append "." key)
    | None => forall other, In other list -> hasKey RamCosts key other = false
    end.
Proof.
  induction list as [|other rest IH]; intros found; cbn [scanNamespaces].
  - intros [= <-]. intros o [].
  - pose proof (eq_refl (hasKey RamCosts key other)) as Hhas.
    unfold hasKey at 2 in Hhas.
    destruct (RamCostsAt RamCosts other) as [| | | | |call props];
      try discriminate.
    simpl. destruct (props key) as [v|]; simpl.
    + intros [= <-]. exists other. repeat split; [left; reflexivity | exact Hhas].
    + intros Hrest. specialize (IH found Hrest).
      destruct found as [[cost name]|].
      * destruct IH as [namespace [Hin [Hkey Hname]]].
        exists namespace. repeat split; [right; exact Hin | exact Hkey | exact Hname].
      * intros o [<-|Ho]; [exact Hhas | apply IH, Ho].
Qed.

Lemma append_length (s1 s2 : string) :
  String.length (String.append s1 s2) = String.length s1 + String.length s2.
Proof. induction s1 as [|c s1 IH]; simpl; [reflexivity | rewrite IH; reflexivity]. Qed.

Lemma qualified_name_differs (namespace key : string) :
  String.append namespace (String.append "." key) <> key.
Proof.
  intros Heq. apply (f_equal String.length) in Heq.
  rewrite !append_length in Heq. simpl in Heq. lia.
Qed.

(** C4.  A name that is not special is resolved against the first
    namespace that has it, in the order bladeburner, codingcontract,
    stanek, gang, sleeve, stock, ui, whatever later namespaces have it as
    well: the cost value is the member of that namespace, the name is
    "<namespace>.<name>", and when the cost evaluates to a number the run
    on that name alone pushes the entry with both.  The default mapping
    gives the cost value, under the bare name, when no namespace has the
    name, and only then. *)
Theorem ordinary_name_resolved_by_first_namespace :
  forall (IPlayer : Type) (C : RamCostConstantsT)
         (RamCosts : string -> option (JSValue IPlayer))
         (player : IPlayer) (key : string),
    specialKey C key = None ->
    namespaces
    = ["bladeburner"; "codingcontract"; "stanek"; "gang"; "sleeve"; "stock"; "ui"]
    /\ (forall (namespace : string) (before after : list string),
          namespaces = (before ++ namespace :: after)%list ->
          (forall other, In other before ->
                         isObject (RamCostsAt RamCosts other) = true
                         /\ hasKey RamCosts key other = false) ->
          hasKey RamCosts key namespace = true ->
          let name := String.append namespace (String.append "." key) in
          resolve RamCosts key = Ok (memberOf RamCosts namespace key, name)
          /\ (forall cost,
                evalCost player (memberOf RamCosts namespace key) = Ok cost ->
                let kept :=
                  List.filter positive
                    (baseEntry C ::
                     if (cost =? 0)%float then []
                     else [RamUsageEntry.mk RamUsageEntry.fn name cost]) in
                getRamCalculationForKeys C RamCosts player [key]
                = Ok (RamCalculation.mk (sumCosts kept) (Some kept))))
    /\ ((forall other, In other namespaces ->
                       isObject (RamCostsAt RamCosts other) = true
                       /\ hasKey RamCosts key other = false) ->
        resolve RamCosts key = Ok (RamCostsAt RamCosts key, key))
    /\ (forall cost,
          resolve RamCosts key = Ok (cost, key) ->
          cost = RamCostsAt RamCosts key
          /\ forall other, In other namespaces ->
                           hasKey RamCosts key other = false).
Proof.
  intros IPlayer C RamCosts player key Hspecial.
  split; [reflexivity|]. split; [|split].
  - intros namespace before after Hsplit Hbefore Hhit name.
    assert (Hresolve : resolve RamCosts key
                       = Ok (memberOf RamCosts namespace key, name)).
    { unfold resolve. rewrite Hsplit.
      rewrite (scanNamespaces_first_hit RamCosts key namespace before after
                 Hbefore Hhit).
      reflexivity. }
    split; [exact Hresolve|].
    intros cost Heval kept.
    unfold getRamCalculationForKeys. rewrite single_key_run.
    rewrite loopBody_unseen by set_solver.
    rewrite Hspecial, Hresolve. cbn [bind]. rewrite Heval. cbn [bind].
    subst kept. destruct (cost =? 0)%float; reflexivity.
  - intros Hall. unfold resolve.
    rewrite (scanNamespaces_all_miss RamCosts key namespaces Hall).
    reflexivity.
  - intros cost Hresolve. unfold resolve in Hresolve.
    apply bind_Ok_inv in Hresolve as [found [Hscan Hfound]].
    pose proof (scanNamespaces_result RamCosts key namespaces found Hscan)
      as Hresult.
    destruct found as [[cost' name']|].
    + destruct Hresult as [namespace [_ [_ Hname]]].
      injection Hfound as _ Hkey. rewrite Hname in Hkey.
      destruct (qualified_name_differs namespace key Hkey).
    + injection Hfound as <-. split; [reflexivity | exact Hresult].
Qed.

Lemma ordinary_name_resolved_by_first_namespace_witness :
  specialKey sampleConstants "getInformation" = None
  /\ hasKey sampleRamCosts "getInformation" "gang" = true
  /\ hasKey sampleRamCosts "getInformation" "sleeve" = true
  /\ resolve sampleRamCosts "getInformation"
     = Ok (JSNumber 2, "gang.getInformation")
  /\ getRamCalculationForKeys sampleConstants sampleRamCosts true
       ["getInformation"]
     = Ok (RamCalculation.mk (1.6 + 2)%float
             (Some [RamUsageEntry.mk RamUsageEntry.misc "baseCost" 1.6;
                    RamUsageEntry.mk RamUsageEntry.fn "gang.getInformation" 2])).
Proof.
  pose proof (ordinary_name_resolved_by_first_namespace SamplePlayer
                sampleConstants sampleRamCosts true "getInformation" eq_refl)
    as [_ [Hfirst _]].
  assert (Hbefore : forall other,
             In other ["bladeburner"; "codingcontract"; "stanek"] ->
             isObject (RamCostsAt sampleRamCosts other) = true
             /\ hasKey sampleRamCosts "getInformation" other = false).
  { intros other [<-|[<-|[<-|[]]]]; split; reflexivity. }
  destruct (Hfirst "gang" ["bladeburner"; "codingcontract"; "stanek"]
              ["sleeve"; "stock"; "ui"] eq_refl Hbefore eq_refl)
    as [Hresolve Hrun].
  split; [reflexivity|]. split; [reflexivity|]. split; [reflexivity|].
  split; [exact Hresolve|].
  exact (Hrun 2%float eq_refl).
Defined.

(** C5.  A name given twice costs what it costs once: the result for
    [n; n] is the result for [n], and for every input the result is that
    of the input without the later repetitions of its names, in which
    every name occurs once. *)
Theorem duplicate_names_collapse :
  forall (IPlayer : Type) (C : RamCostConstantsT)
         (RamCosts : string -> option (JSValue IPlayer)) (player : IPlayer),
    (forall n,
        getRamCalculationForKeys C RamCosts player [n; n]
        = getRamCalculationForKeys C RamCosts player [n])
    /\ (forall keys,
          getRamCalculationForKeys C RamCosts player keys
          = getRamCalculationForKeys C RamCosts player (firstOccurrences keys)
          /\ List.NoDup (firstOccurrences keys)
          /\ (forall k, In k (firstOccurrences keys) <-> In k keys)).
Proof.
  intros IPlayer C RamCosts player.
  assert (Hdedup : forall keys,
             getRamCalculationForKeys C RamCosts player keys
             = getRamCalculationForKeys C RamCosts player (firstOccurrences keys)).
  { intros keys. unfold getRamCalculationForKeys.
    rewrite forOf_firstOccurrences. reflexivity. }
  split.
  - intros n. rewrite (Hdedup [n; n]). simpl.
    rewrite String.eqb_refl. reflexivity.
  - intros keys. split; [apply Hdedup|]. split.
    + apply firstOccurrences_NoDup.
    + intros k. apply firstOccurrences_In.
Qed.

(** C6.  In every returned result the total is the sum of the costs of the
    entries of its list, added from zero in the order of the list. *)
Theorem total_is_sum_of_entries :
  forall (IPlayer : Type) (C : RamCostConstantsT)
         (RamCosts : string -> option (JSValue IPlayer))
         (player : IPlayer) (keys : list string) (r : RamCalculation.t),
    getRamCalculationForKeys C RamCosts player keys = Ok r ->
    exists kept,
      RamCalculation.entries r = Some kept
      /\ RamCalculation.cost r
         = fold_left (fun total entry => (total + RamUsageEntry.cost entry)%float)
             kept 0%float.
Proof.
  intros IPlayer C RamCosts player keys r Hr.
  destruct (result_invariants C RamCosts player keys r Hr)
    as [kept [Hentries [Hcost _]]].
  exists kept. split; [exact Hentries | exact Hcost].
Qed.

Lemma total_is_sum_of_entries_witness :
  getRamCalculationForKeys sampleConstants sampleRamCosts false
    ["hack"; "purchaseProgram"; "window"]
  = Ok (RamCalculation.mk (1.6 + 0.1 + 32 + 25)%float
          (Some [RamUsageEntry.mk RamUsageEntry.misc "baseCost" 1.6;
                 RamUsageEntry.mk RamUsageEntry.fn "hack" 0.1;
                 RamUsageEntry.mk RamUsageEntry.fn "purchaseProgram" 32;
                 RamUsageEntry.mk RamUsageEntry.dom "window" 25]))
  /\ exists kept,
       Some [RamUsageEntry.mk RamUsageEntry.misc "baseCost" 1.6;
             RamUsageEntry.mk RamUsageEntry.fn "hack" 0.1;
             RamUsageEntry.mk RamUsageEntry.fn "purchaseProgram" 32;
             RamUsageEntry.mk RamUsageEntry.dom "window" 25] = Some kept
       /\ (1.6 + 0.1 + 32 + 25)%float
          = fold_left
              (fun total entry => (total + RamUsageEntry.cost entry)%float)
              kept 0%float.
Proof.
  split; [vm_compute; reflexivity|].
  apply (total_is_sum_of_entries SamplePlayer sampleConstants sampleRamCosts
           false ["hack"; "purchaseProgram"; "window"]
           (RamCalculation.mk (1.6 + 0.1 + 32 + 25)%float
              (Some [RamUsageEntry.mk RamUsageEntry.misc "baseCost" 1.6;
                     RamUsageEntry.mk RamUsageEntry.fn "hack" 0.1;
                     RamUsageEntry.mk RamUsageEntry.fn "purchaseProgram" 32;
                     RamUsageEntry.mk RamUsageEntry.dom "window" 25]))).
  vm_compute. reflexivity.
Defined.

(** C7.  Every entry of a returned result has a cost above zero. *)
Theorem entries_have_positive_cost :
  forall (IPlayer : Type) (C : RamCostConstantsT)
         (RamCosts : string -> option (JSValue IPlayer))
         (player : IPlayer) (keys : list string) (r : RamCalculation.t)
         (kept : list RamUsageEntry.t),
    getRamCalculationForKeys C RamCosts player keys = Ok r ->
    RamCalculation.entries r = Some kept ->
    forall entry, In entry kept -> (0 <? RamUsageEntry.cost entry)%float = true.
Proof.
  intros IPlayer C RamCosts player keys r kept Hr Hkept.
  destruct (result_invariants C RamCosts player keys r Hr)
    as [kept' [Hentries [_ Hpositive]]].
  assert (kept' = kept) as -> by congruence.
  intros entry Hin. rewrite List.Forall_forall in Hpositive.
  apply Hpositive, Hin.
Qed.

Lemma entries_have_positive_cost_witness :
  getRamCalculationForKeys sampleConstants sampleRamCosts true
    ["sprintf"; "refund"; "getServer"]
  = Ok (RamCalculation.mk (1.6 + 2)%float
          (Some [RamUsageEntry.mk RamUsageEntry.misc "baseCost" 1.6;
                 RamUsageEntry.mk RamUsageEntry.fn "getServer" 2]))
  /\ forall entry,
       In entry [RamUsageEntry.mk RamUsageEntry.misc "baseCost" 1.6;
                 RamUsageEntry.mk RamUsageEntry.fn "getServer" 2] ->
       (0 <? RamUsageEntry.cost entry)%float = true.
Proof.
  split; [vm_compute; reflexivity|].
  apply (entries_have_positive_cost SamplePlayer sampleConstants sampleRamCosts
           true ["sprintf"; "refund"; "getServer"]
           (RamCalculation.mk (1.6 + 2)%float
              (Some [RamUsageEntry.mk RamUsageEntry.misc "baseCost" 1.6;
                     RamUsageEntry.mk RamUsageEntry.fn "getServer" 2]))).
  - vm_compute. reflexivity.
  - reflexivity.
Defined.

(** C8, at the failing input.  In a catalog written with object literals,
    all seven namespaces in place, [valueOf] is a member of
    [RamCosts.bladeburner] for the [in] operator, inherited from
    [Object.prototype]; it is a function, the aggregator calls it as
    [cost(player)], without a receiver, and the [TypeError] of the call
    leaves [getRamCalculationForKeys]. *)
Lemma inherited_member_call_throws :
  catalogShape literalRamCosts = true
  /\ specialKey sampleConstants "valueOf" = None
  /\ firstNamespace literalRamCosts "valueOf" = Some "bladeburner"
  /\ typeof (memberOf literalRamCosts "bladeburner" "valueOf") = "function"
  /\ resolve literalRamCosts "valueOf"
     = Ok (memberOf literalRamCosts "bladeburner" "valueOf",
           "bladeburner.valueOf")
  /\ (exists message,
        evalCost true (memberOf literalRamCosts "bladeburner" "valueOf")
        = Throw (TypeError message))
  /\ (exists message,
        getRamCalculationForKeys sampleConstants literalRamCosts true
          ["valueOf"]
        = Throw (TypeError message))
  /\ (exists message,
        getRamCalculationForKeys sampleConstants literalRamCosts false
          ["hack"; "valueOf"; "window"]
        = Throw (TypeError message)).
Proof.
  repeat split; try reflexivity; eexists; vm_compute; reflexivity.
Qed.

(** C9.  [corporation] is a special name, next to [hacknet], [document]
    and [window]: with a positive constant, the result for the single name
    [corporation] holds the entry of kind [ns] with the cost
    [ScriptCorporationRamCost], and it is the same result for every
    catalog and every player. *)
Theorem corporation_is_a_special_name :
  forall (IPlayer : Type) (C : RamCostConstantsT)
         (RamCosts : string -> option (JSValue IPlayer)) (player : IPlayer),
    (0 <? ScriptCorporationRamCost C)%float = true ->
    let entry :=
      RamUsageEntry.mk RamUsageEntry.ns "corporation"
        (ScriptCorporationRamCost C) in
    let kept := List.filter positive [baseEntry C; entry] in
    specialKey C "corporation" = Some entry
    /\ specialKey C "hacknet"
       = Some (RamUsageEntry.mk RamUsageEntry.ns "hacknet"
                 (ScriptHacknetNodesRamCost C))
    /\ specialKey C "document"
       = Some (RamUsageEntry.mk RamUsageEntry.dom "document" (ScriptDomRamCost C))
    /\ specialKey C "window"
       = Some (RamUsageEntry.mk RamUsageEntry.dom "window" (ScriptDomRamCost C))
    /\ getRamCalculationForKeys C RamCosts player ["corporation"]
       = Ok (RamCalculation.mk (sumCosts kept) (Some kept))
    /\ In entry kept
    /\ (forall (IPlayer' : Type)
               (RamCosts' : string -> option (JSValue IPlayer'))
               (player' : IPlayer'),
          getRamCalculationForKeys C RamCosts' player' ["corporation"]
          = getRamCalculationForKeys C RamCosts player ["corporation"]).
Proof.
  intros IPlayer C RamCosts player Hpositive entry kept.
  assert (Hrun : forall (P : Type) (R : string -> option (JSValue P)) (p : P),
             getRamCalculationForKeys C R p ["corporation"]
             = Ok (RamCalculation.mk (sumCosts kept) (Some kept))).
  { intros P R p. unfold getRamCalculationForKeys. rewrite single_key_run.
    rewrite loopBody_unseen by set_solver. reflexivity. }
  do 4 (split; [reflexivity|]).
  split; [apply Hrun|]. split.
  - subst kept. apply List.filter_In. split.
    + right. left. reflexivity.
    + exact Hpositive.
  - intros P R p. rewrite !Hrun. reflexivity.
Qed.

Lemma corporation_is_a_special_name_witness :
  (0 <? ScriptCorporationRamCost sampleConstants)%float = true
  /\ getRamCalculationForKeys sampleConstants sampleRamCosts true
       ["corporation"]
     = Ok (RamCalculation.mk (1.6 + 1022.4)%float
             (Some [RamUsageEntry.mk RamUsageEntry.misc "baseCost" 1.6;
                    RamUsageEntry.mk RamUsageEntry.ns "corporation" 1022.4])).
Proof.
  split; [reflexivity|].
  destruct (corporation_is_a_special_name SamplePlayer sampleConstants
              sampleRamCosts true eq_refl) as [_ [_ [_ [_ [Hrun _]]]]].
  exact Hrun.
Defined.

(** C10.  A name whose cost function returns a negative number or zero
    adds nothing: the result is the one for the input without that name.
    Every result is still a sum of costs above zero, and none of its
    entries is the one of that name. *)
Theorem nonpositive_dynamic_cost_dropped :
  forall (IPlayer : Type) (C : RamCostConstantsT)
         (RamCosts : string -> option (JSValue IPlayer)) (player : IPlayer)
         (key name : string) (f : IPlayer -> Result float) (cost : float)
         (props : string -> option (JSValue IPlayer))
         (before after : list string),
    specialKey C key = None ->
    resolve RamCosts key = Ok (JSObject (Some f) props, name) ->
    f player = Ok cost ->
    (cost <=? 0)%float = true ->
    getRamCalculationForKeys C RamCosts player (before ++ key :: after)
    = getRamCalculationForKeys C RamCosts player (before ++ after)
    /\ forall r,
         getRamCalculationForKeys C RamCosts player (before ++ key :: after)
         = Ok r ->
         exists kept,
           RamCalculation.entries r = Some kept
           /\ RamCalculation.cost r = sumCosts kept
           /\ (forall entry, In entry kept ->
                             (0 <? RamUsageEntry.cost entry)%float = true)
           /\ ~ In (RamUsageEntry.mk RamUsageEntry.fn name cost) kept.
Proof.
  intros IPlayer C RamCosts player key name f cost props before after
         Hspecial Hresolve Hcall Hcost.
  apply nonpositive_not_positive in Hcost.
  split.
  - apply (silent_key_removed C RamCosts player key
             (JSObject (Some f) props) name cost);
      [exact Hspecial | exact Hresolve | exact Hcall | exact Hcost].
  - intros r Hr.
    destruct (result_invariants C RamCosts player _ r Hr)
      as [kept [Hentries [Hsum Hpositive]]].
    rewrite List.Forall_forall in Hpositive.
    exists kept. repeat split; try assumption.
    intros Hin. apply Hpositive in Hin. simpl in Hin. congruence.
Qed.

Lemma nonpositive_dynamic_cost_dropped_witness :
  specialKey sampleConstants "refund" = None
  /\ resolve sampleRamCosts "refund"
     = Ok (JSObject (Some (fun _ : SamplePlayer => Ok (-1)%float)) (table []),
           "refund")
  /\ (-1 <=? 0)%float = true
  /\ getRamCalculationForKeys sampleConstants sampleRamCosts true
       (["hack"] ++ "refund" :: ["getServer"])
     = getRamCalculationForKeys sampleConstants sampleRamCosts true
         (["hack"] ++ ["getServer"]).
Proof.
  split; [reflexivity|]. split; [reflexivity|]. split; [reflexivity|].
  apply (nonpositive_dynamic_cost_dropped SamplePlayer sampleConstants
           sampleRamCosts true "refund" "refund"
           (fun _ => Ok (-1)%float) (-1)%float (table []) ["hack"] ["getServer"]
           eq_refl eq_refl eq_refl eq_refl).
Defined.

(** * Further properties *)

(** ** Of the loop check *)

Lemma checkInfiniteLoop_last_write (code : string) (ast : Program) :
  checkInfiniteLoop code ast
  = List.last (map (lineOf code) (flaggedLoops ast)) (-1)%Z.
Proof.
  unfold checkInfiniteLoop, flaggedLoops.
  apply fold_children_last, List.Forall_forall.
  intros stmt _. apply (proj2 (walk_last_flagged code)).
Qed.

Lemma last_member {A : Type} (l : list A) (x d : A) :
  In (List.last (x :: l) d) (x :: l).
Proof.
  revert x; induction l as [|y l IH]; intros x; [left; reflexivity|].
  right. change (In (List.last (y :: l) d) (y :: l)). apply IH.
Qed.

Lemma slice0_newlines_le (code : string) :
  forall stop, countNewlines (slice0 code stop) <= countNewlines code.
Proof.
  induction code as [|c rest IH]; intros [|n];
    cbn [countNewlines slice0]; try lia.
  specialize (IH n). destruct (Ascii.eqb c _); lia.
Qed.

Lemma slice0_newlines_mono (code : string) :
  forall stop stop',
    stop <= stop' ->
    countNewlines (slice0 code stop) <= countNewlines (slice0 code stop').
Proof.
  induction code as [|c rest IH]; intros [|n] [|m] Hle;
    cbn [countNewlines slice0]; try lia.
  specialize (IH n m ltac:(lia)). destruct (Ascii.eqb c _); lia.
Qed.

Lemma slice0_all (code : string) :
  forall stop, String.length code <= stop -> slice0 code stop = code.
Proof.
  induction code as [|c rest IH]; intros [|n] Hlen; simpl in *;
    try reflexivity; try lia.
  rewrite IH by lia. reflexivity.
Qed.

(** X1.  The line of an offset is one more than the number of newline
    characters of the text before it: 1 at offset 0, never decreasing with
    the offset, at most one more than the newlines of the whole text, and
    exactly that at and past the end of the text. *)
Theorem lineOf_counts_lines_of_prefix :
  forall (code : string),
    lineOf code 0 = 1%Z
    /\ (forall prefix rest,
          code = String.append prefix rest ->
          lineOf code (String.length prefix)
          = (Z.of_nat (countNewlines prefix) + 1)%Z)
    /\ (forall start start',
          start <= start' -> (lineOf code start <= lineOf code start')%Z)
    /\ (forall start,
          (1 <= lineOf code start <= Z.of_nat (countNewlines code) + 1)%Z)
    /\ (forall start,
          String.length code <= start ->
          lineOf code start = (Z.of_nat (countNewlines code) + 1)%Z).
Proof.
  intros code. unfold lineOf.
  split; [destruct code; reflexivity|]. split; [|split; [|split]].
  - intros prefix rest ->. rewrite slice0_prefix. reflexivity.
  - intros start start' Hle.
    pose proof (slice0_newlines_mono code start start' Hle). lia.
  - intros start. pose proof (slice0_newlines_le code start). lia.
  - intros start Hlen. rewrite slice0_all by exact Hlen. reflexivity.
Qed.

(** X2.  The result is the sentinel -1 exactly when the walk flags no
    loop; otherwise it is the line of a flagged loop, between 1 and one
    more than the number of newlines of the source. *)
Theorem checkInfiniteLoop_sentinel_or_line :
  forall (code : string) (ast : Program),
    (checkInfiniteLoop code ast = (-1)%Z <-> flaggedLoops ast = [])
    /\ (flaggedLoops ast <> [] ->
        (exists start,
            In start (flaggedLoops ast)
            /\ checkInfiniteLoop code ast = lineOf code start)
        /\ (1 <= checkInfiniteLoop code ast
            <= Z.of_nat (countNewlines code) + 1)%Z).
Proof.
  intros code ast. rewrite checkInfiniteLoop_last_write.
  destruct (flaggedLoops ast) as [|start rest] eqn:Hflagged.
  - split; [split; reflexivity|]. intros Hne. contradiction.
  - assert (Hin : exists s, In s (start :: rest)
                    /\ List.last (map (lineOf code) (start :: rest)) (-1)%Z
                       = lineOf code s).
    { pose proof (last_member (map (lineOf code) rest) (lineOf code start)
                    (-1)%Z) as Hlast.
      change (lineOf code start :: map (lineOf code) rest)
        with (map (lineOf code) (start :: rest)) in Hlast.
      apply List.in_map_iff in Hlast as [s [Heq Hs]]. eauto. }
    destruct Hin as [s [Hs Heq]].
    assert (Hbound : (1 <= lineOf code s <= Z.of_nat (countNewlines code) + 1)%Z).
    { unfold lineOf. pose proof (slice0_newlines_le code s). lia. }
    split; [split; [lia | discriminate]|].
    intros _. split; [eauto | lia].
Qed.

(** X3.  For a program made of two lists of statements, the findings of
    the second list hide those of the first: the result is that of the
    second list when the walk flags a loop in it, and that of the first
    list otherwise. *)
Theorem checkInfiniteLoop_of_concatenation :
  forall (code : string) (first second : Program),
    checkInfiniteLoop code (first ++ second)%list
    = match flaggedLoops second with
      | [] => checkInfiniteLoop code first
      | _ :: _ => checkInfiniteLoop code second
      end.
Proof.
  intros code first second. rewrite !checkInfiniteLoop_last_write.
  unfold flaggedLoops. rewrite List.flat_map_app, map_app, last_app_write.
  destruct (flat_map flaggedStatement second) as [|start rest];
    [reflexivity|].
  apply (last_default_irrelevant (map (lineOf code) rest) (lineOf code start)).
Qed.

Lemma fold_await_flag {N : Type} (await : N -> bool -> bool)
    (contains : N -> bool) (children : list N) :
  Forall (fun child => forall flag, await child flag = flag || contains child)
         children ->
  forall flag,
    fold_left (fun fl child => await child fl) children flag
    = flag || existsb contains children.
Proof.
  induction 1 as [|child rest Hchild _ IH]; intros flag; simpl.
  - rewrite orb_false_r. reflexivity.
  - rewrite IH, Hchild, orb_assoc. reflexivity.
Qed.

Ltac solve_await :=
  intros; simpl;
  repeat match goal with
         | H : forall flag : bool, _ = _ |- _ => rewrite H; clear H
         | H : Forall _ _ |- _ => erewrite fold_await_flag by exact H; clear H
         end;
  rewrite ?orb_false_r, ?orb_true_r, ?orb_assoc; reflexivity.

Lemma await_flag_only_set :
  (forall e flag, awaitExpression e flag = flag || containsAwaitExpression e)
  /\ (forall s flag, awaitStatement s flag = flag || containsAwaitStatement s).
Proof.
  split.
  - apply (expression_nodes_ind
      (fun e => forall flag,
           awaitExpression e flag = flag || containsAwaitExpression e)
      (fun s => forall flag,
           awaitStatement s flag = flag || containsAwaitStatement s));
    solve_await.
  - apply (statement_nodes_ind
      (fun e => forall flag,
           awaitExpression e flag = flag || containsAwaitExpression e)
      (fun s => forall flag,
           awaitStatement s flag = flag || containsAwaitStatement s));
    solve_await.
Qed.


Lemma whileFree_flags_nothing :
  (forall e, whileFreeExpression e = true -> flaggedExpression e = [])
  /\ (forall s, whileFreeStatement s = true -> flaggedStatement s = []).
Proof.
  assert (Hlist : forall (N : Type) (free : N -> bool) (flagged : N -> list nat)
                         (children : list N),
             Forall (fun c => free c = true -> flagged c = []) children ->
             forallb free children = true -> flat_map flagged children = []).
  { intros N free flagged children Hall.
    induction Hall as [|c rest Hc _ IH]; simpl; [reflexivity|].
    intros Hfree. apply andb_true_iff in Hfree as [Hhead Hrest].
    rewrite (Hc Hhead), (IH Hrest). reflexivity. }
  split.
  - apply (expression_nodes_ind
      (fun e => whileFreeExpression e = true -> flaggedExpression e = [])
      (fun s => whileFreeStatement s = true -> flaggedStatement s = []));
    simpl; intros;
    repeat match goal with
           | H : _ && _ = true |- _ => apply andb_true_iff in H as [? ?]
           end;
    repeat match goal with
           | H : ?free = true -> ?flagged = [], H' : ?free = true |- _ =>
               rewrite (H H'); clear H
           end;
    try (erewrite Hlist by eassumption); try reflexivity; try discriminate.
  - apply (statement_nodes_ind
      (fun e => whileFreeExpression e = true -> flaggedExpression e = [])
      (fun s => whileFreeStatement s = true -> flaggedStatement s = []));
    simpl; intros;
    repeat match goal with
           | H : _ && _ = true |- _ => apply andb_true_iff in H as [? ?]
           end;
    repeat match goal with
           | H : ?free = true -> ?flagged = [], H' : ?free = true |- _ =>
               rewrite (H H'); clear H
           end;
    try (erewrite Hlist by eassumption); try reflexivity; try discriminate.
Qed.

(** X5.  Only [while] statements are ever flagged: for a program without
    any [WhileStatement] node the result is the sentinel -1, whatever
    other loops it has ([do{}while(true)] is not reported). *)
Theorem checkInfiniteLoop_flags_only_while :
  forall (code : string) (ast : Program),
    forallb whileFreeStatement ast = true ->
    checkInfiniteLoop code ast = (-1)%Z.
Proof.
  intros code ast Hfree. rewrite checkInfiniteLoop_last_write.
  assert (Hnone : flaggedLoops ast = []).
  { unfold flaggedLoops. induction ast as [|stmt rest IH]; [reflexivity|].
    simpl in *. apply andb_true_iff in Hfree as [Hstmt Hrest].
    rewrite (proj2 whileFree_flags_nothing stmt Hstmt), (IH Hrest).
    reflexivity. }
  rewrite Hnone. reflexivity.
Qed.

Lemma checkInfiniteLoop_flags_only_while_witness :
  forallb whileFreeStatement doWhileAst = true
  /\ checkInfiniteLoop doWhileCode doWhileAst = (-1)%Z.
Proof.
  split; [reflexivity|].
  apply (checkInfiniteLoop_flags_only_while doWhileCode doWhileAst).
  reflexivity.
Defined.

(** ** Of the cost aggregator *)

(** A value above zero is not equal to zero. *)
Lemma positive_not_zero (x : float) :
  (0 <? x)%float = true -> (x =? 0)%float = false.
Proof.
  rewrite ltb_spec, FloatAxioms.eqb_spec.
  change (Prim2SF 0) with (S754_zero false).
  unfold SFltb, SFeqb.
  destruct (Prim2SF x) as [s| s | |s m e]; simpl; try reflexivity;
    try discriminate; destruct s; simpl; congruence.
Qed.

Section AggregatorRuns.

Context {IPlayer : Type}.
Variable RamCostConstants : RamCostConstantsT.
Variable RamCosts : string -> option (JSValue IPlayer).

Local Abbreviation loopBody := (loopBody RamCostConstants RamCosts).
Local Abbreviation forOf := (forOf RamCostConstants RamCosts).
Local Abbreviation getRamCalculationForKeys :=
  (getRamCalculationForKeys RamCostConstants RamCosts).
Local Abbreviation specialKey := (specialKey RamCostConstants).
Local Abbreviation resolve := (resolve RamCosts).
Local Abbreviation contribution := (contribution RamCostConstants RamCosts).
Local Abbreviation baseEntry := (baseEntry RamCostConstants).

Lemma loopBody_unseen_pushes player st key st' :
  key ∉ seen st ->
  loopBody player st key = Ok st' ->
  st' = mkState (entries st ++ contribution player key) (seen st ∪ {[ key ]}).
Proof.
  intros Hnin. rewrite (loopBody_unseen _ _ player st key Hnin).
  unfold contribution.
  destruct (specialKey key) as [entry|]; [intros [= <-]; reflexivity|].
  destruct (resolve key) as [[cost name]|e]; cbn [bind]; [|discriminate].
  destruct (evalCost player cost) as [c|e]; cbn [bind]; [|discriminate].
  destruct (c =? 0)%float; intros [= <-];
    [rewrite app_nil_r|]; reflexivity.
Qed.

Lemma loopBody_seen_after player st key st' :
  loopBody player st key = Ok st' ->
  forall k, k ∈ seen st' <-> k ∈ seen st \/ k = key.
Proof.
  intros Hstep k. destruct (decide (key ∈ seen st)) as [Hin|Hnin].
  - rewrite (loopBody_seen _ _ player st key Hin) in Hstep.
    injection Hstep as <-. split; [auto|]. intros [?| ->]; assumption.
  - rewrite (loopBody_unseen_pushes player st key st' Hnin Hstep). simpl.
    set_solver.
Qed.

Lemma forOf_seen_after player keys :
  forall st st',
    forOf player keys st = Ok st' ->
    forall k, k ∈ seen st' <-> k ∈ seen st \/ In k keys.
Proof.
  induction keys as [|key rest IH]; intros st st' Hrun k; simpl in *.
  - injection Hrun as <-. tauto.
  - apply bind_Ok_inv in Hrun as [st1 [Hstep Hrest]].
    rewrite (IH st1 st' Hrest k), (loopBody_seen_after player st key st1 Hstep k).
    split; [intros [[?| ->]|?] | intros [?|[<-|?]]]; auto.
Qed.

(** Over keys that are pairwise distinct and not seen yet, the loop pushes
    the contribution of each key, in order. *)
Lemma forOf_distinct player keys :
  forall st st',
    List.NoDup keys ->
    (forall k, In k keys -> k ∉ seen st) ->
    forOf player keys st = Ok st' ->
    entries st' = (entries st ++ flat_map (contribution player) keys)%list.
Proof.
  induction keys as [|key rest IH]; intros st st' Hnodup Hunseen Hrun;
    simpl in *.
  - injection Hrun as <-. rewrite app_nil_r. reflexivity.
  - apply bind_Ok_inv in Hrun as [st1 [Hstep Hrest]].
    inversion Hnodup as [|? ? Hhead Htail]; subst.
    pose proof (loopBody_unseen_pushes player st key st1
                  (Hunseen key (or_introl eq_refl)) Hstep) as ->.
    assert (Hlater : forall k, In k rest ->
                       k ∉ seen (mkState (entries st ++ contribution player key)
                                   (seen st ∪ {[ key ]}))).
    { intros k Hk. simpl. pose proof (Hunseen k (or_intror Hk)).
      assert (k <> key) by (intros ->; contradiction). set_solver. }
    rewrite (IH _ st' Htail Hlater Hrest).
    simpl. rewrite <- app_assoc. reflexivity.
Qed.

Lemma run_closed_form player keys r :
  getRamCalculationForKeys player keys = Ok r ->
  r = RamCalculation.mk
        (sumCosts
           (List.filter positive
              (baseEntry :: flat_map (contribution player)
                              (firstOccurrences keys))))
        (Some
           (List.filter positive
              (baseEntry :: flat_map (contribution player)
                              (firstOccurrences keys)))).
Proof.
  intros Hr.
  apply getRamCalculationForKeys_Ok in Hr as [st [Hrun ->]].
  rewrite <- forOf_firstOccurrences in Hrun.
  assert (Hunseen : forall k, In k (firstOccurrences keys) ->
                      k ∉ seen (mkState [baseEntry] ∅))
    by (intros k _; simpl; set_solver).
  rewrite (forOf_distinct player (firstOccurrences keys) _ st
             (firstOccurrences_NoDup keys) Hunseen Hrun).
  reflexivity.
Qed.

Lemma contribution_cases player key entry :
  In entry (contribution player key) ->
  specialKey key = Some entry
  \/ (specialKey key = None
      /\ exists cost c,
           resolve key = Ok (cost, RamUsageEntry.name entry)
           /\ evalCost player cost = Ok c
           /\ entry = RamUsageEntry.mk RamUsageEntry.fn
                        (RamUsageEntry.name entry) c).
Proof.
  unfold contribution.
  destruct (specialKey key) as [special|].
  - intros [<-|[]]. left. reflexivity.
  - destruct (resolve key) as [[cost name]|e]; [|intros []].
    destruct (evalCost player cost) as [c|e] eqn:Heval; [|intros []].
    destruct (c =? 0)%float; [intros []|].
    intros [<-|[]]. right. split; [reflexivity|].
    exists cost, c. repeat split. exact Heval.
Qed.

Lemma contribution_length player key :
  length (contribution player key) <= 1.
Proof.
  unfold contribution.
  destruct (specialKey key); [simpl; lia|].
  destruct (resolve key) as [[cost name]|e]; [|simpl; lia].
  destruct (evalCost player cost) as [c|e]; [|simpl; lia].
  destruct (c =? 0)%float; simpl; lia.
Qed.

Lemma flat_map_contribution_length player keys :
  length (flat_map (contribution player) keys) <= length keys.
Proof.
  induction keys as [|key rest IH]; simpl; [lia|].
  rewrite length_app. pose proof (contribution_length player key). lia.
Qed.

Lemma firstOccurrences_length keys :
  length (firstOccurrences keys) <= length keys.
Proof.
  induction keys as [|key rest IH]; simpl; [lia|].
  pose proof (List.filter_length_le
                (fun k => negb (String.eqb k key)) (firstOccurrences rest)).
  lia.
Qed.

Lemma specialKey_kind key entry :
  specialKey key = Some entry ->
  In key ["hacknet"; "document"; "window"; "corporation"]
  /\ RamUsageEntry.name entry = key
  /\ (RamUsageEntry.type entry = RamUsageEntry.ns
      \/ RamUsageEntry.type entry = RamUsageEntry.dom).
Proof.
  unfold specialKey.
  destruct (String.eqb_spec key "hacknet") as [->|_];
    [intros [= <-]; simpl; auto|].
  destruct (String.eqb_spec key "document") as [->|_];
    [intros [= <-]; simpl; auto|].
  destruct (String.eqb_spec key "window") as [->|_];
    [intros [= <-]; simpl; auto 6|].
  destruct (String.eqb_spec key "corporation") as [->|_];
    [intros [= <-]; simpl; auto 6|].
  discriminate.
Qed.

End AggregatorRuns.

Lemma run_entries {IPlayer : Type} (C : RamCostConstantsT)
    (RamCosts : string -> option (JSValue IPlayer)) (player : IPlayer)
    (keys : list string) (r : RamCalculation.t) (kept : list RamUsageEntry.t) :
  getRamCalculationForKeys C RamCosts player keys = Ok r ->
  RamCalculation.entries r = Some kept ->
  kept = List.filter positive
           (baseEntry C ::
            flat_map (contribution C RamCosts player) (firstOccurrences keys)).
Proof.
  intros Hr Hkept.
  rewrite (run_closed_form C RamCosts player keys r Hr) in Hkept.
  cbn [RamCalculation.entries] in Hkept. congruence.
Qed.

(** X6.  A returned result lists, after the base entry, what each distinct
    name of the input pushes, in the order in which the names first
    occur, keeping the entries with a cost above zero; the total is their
    sum.  With a positive base cost the base entry comes first. *)
Theorem result_in_first_seen_order :
  forall (IPlayer : Type) (C : RamCostConstantsT)
         (RamCosts : string -> option (JSValue IPlayer))
         (player : IPlayer) (keys : list string) (r : RamCalculation.t),
    getRamCalculationForKeys C RamCosts player keys = Ok r ->
    let kept :=
      List.filter positive
        (baseEntry C ::
         flat_map (contribution C RamCosts player) (firstOccurrences keys)) in
    RamCalculation.entries r = Some kept
    /\ RamCalculation.cost r = sumCosts kept
    /\ ((0 <? ScriptBaseRamCost C)%float = true ->
        exists rest, kept = baseEntry C :: rest).
Proof.
  intros IPlayer C RamCosts player keys r Hr kept.
  rewrite (run_closed_form C RamCosts player keys r Hr). fold kept.
  split; [reflexivity|]. split; [reflexivity|].
  intros Hbase. subst kept. cbn [List.filter].
  unfold positive at 1. cbn [baseEntry RamUsageEntry.cost]. rewrite Hbase.
  eauto.
Qed.

Lemma result_in_first_seen_order_witness :
  getRamCalculationForKeys sampleConstants sampleRamCosts true
    ["travel"; "hack"; "sprintf"; "travel"; "document"; "hack"]
  = Ok (RamCalculation.mk (1.6 + 4 + 0.1 + 25)%float
          (Some [RamUsageEntry.mk RamUsageEntry.misc "baseCost" 1.6;
                 RamUsageEntry.mk RamUsageEntry.fn "sleeve.travel" 4;
                 RamUsageEntry.mk RamUsageEntry.fn "hack" 0.1;
                 RamUsageEntry.mk RamUsageEntry.dom "document" 25]))
  /\ Some [RamUsageEntry.mk RamUsageEntry.misc "baseCost" 1.6;
           RamUsageEntry.mk RamUsageEntry.fn "sleeve.travel" 4;
           RamUsageEntry.mk RamUsageEntry.fn "hack" 0.1;
           RamUsageEntry.mk RamUsageEntry.dom "document" 25]
     = Some (List.filter positive
               (baseEntry sampleConstants ::
                flat_map (contribution sampleConstants sampleRamCosts true)
                  (firstOccurrences
                     ["travel"; "hack"; "sprintf"; "travel"; "document";
                      "hack"]))).
Proof.
  split; [vm_compute; reflexivity|].
  apply (result_in_first_seen_order SamplePlayer sampleConstants
           sampleRamCosts true
           ["travel"; "hack"; "sprintf"; "travel"; "document"; "hack"]
           (RamCalculation.mk (1.6 + 4 + 0.1 + 25)%float
              (Some [RamUsageEntry.mk RamUsageEntry.misc "baseCost" 1.6;
                     RamUsageEntry.mk RamUsageEntry.fn "sleeve.travel" 4;
                     RamUsageEntry.mk RamUsageEntry.fn "hack" 0.1;
                     RamUsageEntry.mk RamUsageEntry.dom "document" 25]))).
  vm_compute. reflexivity.
Defined.

(** X7.  Every entry of a returned result is accounted for: it is the base
    entry, or the entry of a special name of the input (kind [ns] or
    [dom], named as the input name), or an entry of kind [fn] whose name
    and cost are those the catalog resolves for a name of the input that
    is not special. *)
Theorem every_entry_comes_from_a_name :
  forall (IPlayer : Type) (C : RamCostConstantsT)
         (RamCosts : string -> option (JSValue IPlayer))
         (player : IPlayer) (keys : list string) (r : RamCalculation.t)
         (kept : list RamUsageEntry.t) (entry : RamUsageEntry.t),
    getRamCalculationForKeys C RamCosts player keys = Ok r ->
    RamCalculation.entries r = Some kept ->
    In entry kept ->
    entry = baseEntry C
    \/ (exists key,
          In key keys
          /\ In key ["hacknet"; "document"; "window"; "corporation"]
          /\ specialKey C key = Some entry
          /\ RamUsageEntry.name entry = key
          /\ (RamUsageEntry.type entry = RamUsageEntry.ns
              \/ RamUsageEntry.type entry = RamUsageEntry.dom))
    \/ (exists key cost c,
          In key keys
          /\ specialKey C key = None
          /\ resolve RamCosts key = Ok (cost, RamUsageEntry.name entry)
          /\ evalCost player cost = Ok c
          /\ entry = RamUsageEntry.mk RamUsageEntry.fn
                       (RamUsageEntry.name entry) c).
Proof.
  intros IPlayer C RamCosts player keys r kept entry Hr Hkept Hin.
  rewrite (run_entries C RamCosts player keys r kept Hr Hkept) in Hin.
  apply List.filter_In in Hin as [Hin _].
  destruct Hin as [<-|Hin]; [left; reflexivity|right].
  apply List.in_flat_map in Hin as [key [Hkey Hin]].
  apply (proj1 (firstOccurrences_In keys key)) in Hkey.
  destruct (contribution_cases C RamCosts player key entry Hin)
    as [Hspecial|[Hordinary [cost [c [Hresolve [Heval Hentry]]]]]].
  - left. exists key.
    destruct (specialKey_kind C key entry Hspecial) as [Hfour [Hname Hkind]].
    repeat split; assumption.
  - right. exists key, cost, c. repeat split; assumption.
Qed.

Lemma every_entry_comes_from_a_name_witness :
  getRamCalculationForKeys sampleConstants sampleRamCosts true
    ["getCityChaos"; "window"]
  = Ok (RamCalculation.mk (1.6 + 4 + 25)%float
          (Some [RamUsageEntry.mk RamUsageEntry.misc "baseCost" 1.6;
                 RamUsageEntry.mk RamUsageEntry.fn "bladeburner.getCityChaos" 4;
                 RamUsageEntry.mk RamUsageEntry.dom "window" 25]))
  /\ exists key cost,
       In key ["getCityChaos"; "window"]
       /\ resolve sampleRamCosts key
          = Ok (cost : JSValue SamplePlayer, "bladeburner.getCityChaos").
Proof.
  split; [vm_compute; reflexivity|].
  destruct (every_entry_comes_from_a_name SamplePlayer sampleConstants
              sampleRamCosts true ["getCityChaos"; "window"]
              (RamCalculation.mk (1.6 + 4 + 25)%float
                 (Some [RamUsageEntry.mk RamUsageEntry.misc "baseCost" 1.6;
                        RamUsageEntry.mk RamUsageEntry.fn
                          "bladeburner.getCityChaos" 4;
                        RamUsageEntry.mk RamUsageEntry.dom "window" 25]))
              [RamUsageEntry.mk RamUsageEntry.misc "baseCost" 1.6;
               RamUsageEntry.mk RamUsageEntry.fn "bladeburner.getCityChaos" 4;
               RamUsageEntry.mk RamUsageEntry.dom "window" 25]
              (RamUsageEntry.mk RamUsageEntry.fn "bladeburner.getCityChaos" 4)
              ltac:(vm_compute; reflexivity) eq_refl
              ltac:(right; left; reflexivity))
    as [Hbase|[[key [_ [_ [_ [_ [Hkind|Hkind]]]]]]|[key [cost [c [Hin [_ [Hres _]]]]]]]].
  - discriminate Hbase.
  - discriminate Hkind.
  - discriminate Hkind.
  - exists key, cost. split; [exact Hin | exact Hres].
Defined.

(** X8.  A returned result has at most one entry for each distinct name of
    the input, besides the base entry. *)
Theorem at_most_one_entry_per_name :
  forall (IPlayer : Type) (C : RamCostConstantsT)
         (RamCosts : string -> option (JSValue IPlayer))
         (player : IPlayer) (keys : list string) (r : RamCalculation.t)
         (kept : list RamUsageEntry.t),
    getRamCalculationForKeys C RamCosts player keys = Ok r ->
    RamCalculation.entries r = Some kept ->
    length kept <= 1 + length (firstOccurrences keys)
    /\ length (firstOccurrences keys) <= length keys.
Proof.
  intros IPlayer C RamCosts player keys r kept Hr Hkept.
  rewrite (run_entries C RamCosts player keys r kept Hr Hkept).
  split; [|apply firstOccurrences_length].
  etransitivity; [apply List.filter_length_le|].
  simpl.
  pose proof (flat_map_contribution_length C RamCosts player
                (firstOccurrences keys)).
  lia.
Qed.

Lemma at_most_one_entry_per_name_witness :
  getRamCalculationForKeys sampleConstants sampleRamCosts true
    ["hack"; "hack"; "hack"; "buy"]
  = Ok (RamCalculation.mk (1.6 + 0.1 + 2.5)%float
          (Some [RamUsageEntry.mk RamUsageEntry.misc "baseCost" 1.6;
                 RamUsageEntry.mk RamUsageEntry.fn "hack" 0.1;
                 RamUsageEntry.mk RamUsageEntry.fn "stock.buy" 2.5]))
  /\ 3 <= 1 + length (firstOccurrences ["hack"; "hack"; "hack"; "buy"]).
Proof.
  split; [vm_compute; reflexivity|].
  apply (at_most_one_entry_per_name SamplePlayer sampleConstants
           sampleRamCosts true ["hack"; "hack"; "hack"; "buy"]
           (RamCalculation.mk (1.6 + 0.1 + 2.5)%float
              (Some [RamUsageEntry.mk RamUsageEntry.misc "baseCost" 1.6;
                     RamUsageEntry.mk RamUsageEntry.fn "hack" 0.1;
                     RamUsageEntry.mk RamUsageEntry.fn "stock.buy" 2.5]))
           [RamUsageEntry.mk RamUsageEntry.misc "baseCost" 1.6;
            RamUsageEntry.mk RamUsageEntry.fn "hack" 0.1;
            RamUsageEntry.mk RamUsageEntry.fn "stock.buy" 2.5]
           ltac:(vm_compute; reflexivity) eq_refl).
Defined.

Lemma filter_permutation {A : Type} (f : A -> bool) (l l' : list A) :
  Permutation l l' -> Permutation (List.filter f l) (List.filter f l').
Proof.
  induction 1 as [|x l l' _ IH|x y l|l l' l'' _ IH1 _ IH2]; simpl.
  - constructor.
  - destruct (f x); [constructor|]; exact IH.
  - destruct (f x), (f y); try reflexivity. constructor.
  - etransitivity; eassumption.
Qed.

(** X9.  The entries do not depend on the order of the names: two inputs
    that are permutations of each other give results whose entries are a
    permutation of each other. *)
Theorem entries_independent_of_order :
  forall (IPlayer : Type) (C : RamCostConstantsT)
         (RamCosts : string -> option (JSValue IPlayer))
         (player : IPlayer) (keys keys' : list string)
         (r r' : RamCalculation.t) (kept kept' : list RamUsageEntry.t),
    Permutation keys keys' ->
    getRamCalculationForKeys C RamCosts player keys = Ok r ->
    getRamCalculationForKeys C RamCosts player keys' = Ok r' ->
    RamCalculation.entries r = Some kept ->
    RamCalculation.entries r' = Some kept' ->
    Permutation kept kept'.
Proof.
  intros IPlayer C RamCosts player keys keys' r r' kept kept'
         Hperm Hr Hr' Hkept Hkept'.
  rewrite (run_entries C RamCosts player keys r kept Hr Hkept).
  rewrite (run_entries C RamCosts player keys' r' kept' Hr' Hkept').
  apply filter_permutation. constructor.
  apply Permutation_flat_map.
  apply Permutation.NoDup_Permutation; try apply firstOccurrences_NoDup.
  intros k. rewrite !firstOccurrences_In.
  split; apply Permutation_in; [exact Hperm | symmetry; exact Hperm].
Qed.

Lemma entries_independent_of_order_witness :
  Permutation ["hack"; "window"; "buy"] ["buy"; "hack"; "window"]
  /\ Permutation
       [RamUsageEntry.mk RamUsageEntry.misc "baseCost" 1.6;
        RamUsageEntry.mk RamUsageEntry.fn "hack" 0.1;
        RamUsageEntry.mk RamUsageEntry.dom "window" 25;
        RamUsageEntry.mk RamUsageEntry.fn "stock.buy" 2.5]
       [RamUsageEntry.mk RamUsageEntry.misc "baseCost" 1.6;
        RamUsageEntry.mk RamUsageEntry.fn "stock.buy" 2.5;
        RamUsageEntry.mk RamUsageEntry.fn "hack" 0.1;
        RamUsageEntry.mk RamUsageEntry.dom "window" 25].
Proof.
  assert (Hperm : Permutation ["hack"; "window"; "buy"]
                    ["buy"; "hack"; "window"]).
  { symmetry. apply (Permutation_cons_append ["hack"; "window"] "buy"). }
  split; [exact Hperm|].
  apply (entries_independent_of_order SamplePlayer sampleConstants
           sampleRamCosts true
           ["hack"; "window"; "buy"] ["buy"; "hack"; "window"]
           (RamCalculation.mk (1.6 + 0.1 + 25 + 2.5)%float
              (Some [RamUsageEntry.mk RamUsageEntry.misc "baseCost" 1.6;
                     RamUsageEntry.mk RamUsageEntry.fn "hack" 0.1;
                     RamUsageEntry.mk RamUsageEntry.dom "window" 25;
                     RamUsageEntry.mk RamUsageEntry.fn "stock.buy" 2.5]))
           (RamCalculation.mk (1.6 + 2.5 + 0.1 + 25)%float
              (Some [RamUsageEntry.mk RamUsageEntry.misc "baseCost" 1.6;
                     RamUsageEntry.mk RamUsageEntry.fn "stock.buy" 2.5;
                     RamUsageEntry.mk RamUsageEntry.fn "hack" 0.1;
                     RamUsageEntry.mk RamUsageEntry.dom "window" 25]))
           _ _ Hperm
           ltac:(vm_compute; reflexivity) ltac:(vm_compute; reflexivity)
           eq_refl eq_refl).
Defined.

Lemma sumCosts_snoc (kept : list RamUsageEntry.t) (entry : RamUsageEntry.t) :
  sumCosts (kept ++ [entry])%list
  = (sumCosts kept + RamUsageEntry.cost entry)%float.
Proof. unfold sumCosts. rewrite List.fold_left_app. reflexivity. Qed.

(** X10.  Adding, at the end of the input, a new name that is not special
    and whose cost is above zero appends one entry of kind [fn] for it and
    adds exactly its cost to the total. *)
Theorem new_name_adds_its_cost :
  forall (IPlayer : Type) (C : RamCostConstantsT)
         (RamCosts : string -> option (JSValue IPlayer))
         (player : IPlayer) (keys : list string) (key name : string)
         (cost : JSValue IPlayer) (c : float) (r : RamCalculation.t)
         (kept : list RamUsageEntry.t),
    ~ In key keys ->
    specialKey C key = None ->
    resolve RamCosts key = Ok (cost, name) ->
    evalCost player cost = Ok c ->
    (0 <? c)%float = true ->
    getRamCalculationForKeys C RamCosts player keys = Ok r ->
    RamCalculation.entries r = Some kept ->
    getRamCalculationForKeys C RamCosts player (keys ++ [key])
    = Ok (RamCalculation.mk
            (RamCalculation.cost r + c)%float
            (Some (kept ++ [RamUsageEntry.mk RamUsageEntry.fn name c])%list)).
Proof.
  intros IPlayer C RamCosts player keys key name cost c r kept
         Hnew Hspecial Hresolve Heval Hpositive Hr Hkept.
  apply getRamCalculationForKeys_Ok in Hr as [st [Hrun ->]].
  cbn [RamCalculation.entries RamCalculation.cost] in *.
  injection Hkept as <-.
  unfold getRamCalculationForKeys. rewrite forOf_app, Hrun.
  cbn [bind forOf].
  assert (Hunseen : key ∉ seen st).
  { intros Hin.
    apply (forOf_seen_after C RamCosts player keys _ st Hrun key) in Hin
      as [Hin|Hin]; [simpl in Hin; set_solver | contradiction]. }
  rewrite (loopBody_unseen C RamCosts player st key Hunseen).
  rewrite Hspecial, Hresolve. cbn [bind]. rewrite Heval. cbn [bind].
  rewrite (positive_not_zero _ Hpositive). cbn [bind entries].
  assert (Hkeep : positive (RamUsageEntry.mk RamUsageEntry.fn name c) = true)
    by exact Hpositive.
  rewrite List.filter_app. cbn [List.filter]. rewrite Hkeep.
  rewrite sumCosts_snoc. reflexivity.
Qed.

Lemma new_name_adds_its_cost_witness :
  ~ In "getServer" ["hack"; "window"]
  /\ getRamCalculationForKeys sampleConstants sampleRamCosts true
       (["hack"; "window"] ++ ["getServer"])
     = Ok (RamCalculation.mk ((1.6 + 0.1 + 25) + 2)%float
             (Some ([RamUsageEntry.mk RamUsageEntry.misc "baseCost" 1.6;
                     RamUsageEntry.mk RamUsageEntry.fn "hack" 0.1;
                     RamUsageEntry.mk RamUsageEntry.dom "window" 25]
                    ++ [RamUsageEntry.mk RamUsageEntry.fn "getServer" 2])%list)).
Proof.
  assert (Hnew : ~ In "getServer" ["hack"; "window"]).
  { intros [H|[H|[]]]; discriminate H. }
  split; [exact Hnew|].
  apply (new_name_adds_its_cost SamplePlayer sampleConstants sampleRamCosts
           true ["hack"; "window"] "getServer" "getServer" (JSNumber 2)
           2%float
           (RamCalculation.mk (1.6 + 0.1 + 25)%float
              (Some [RamUsageEntry.mk RamUsageEntry.misc "baseCost" 1.6;
                     RamUsageEntry.mk RamUsageEntry.fn "hack" 0.1;
                     RamUsageEntry.mk RamUsageEntry.dom "window" 25]))
           _ Hnew eq_refl eq_refl eq_refl eq_refl
           ltac:(vm_compute; reflexivity) eq_refl).
Defined.

Lemma loopBody_special {IPlayer : Type} (C : RamCostConstantsT)
    (RamCosts : string -> option (JSValue IPlayer)) (player : IPlayer)
    (st : LoopState) (key : string) (entry : RamUsageEntry.t) :
  specialKey C key = Some entry ->
  loopBody C RamCosts player st key
  = if bool_decide (key ∈ seen st) then Ok st
    else Ok (mkState (entries st ++ [entry]) (seen st ∪ {[ key ]})).
Proof. intros Hspecial. unfold loopBody. rewrite Hspecial. reflexivity. Qed.

Lemma forOf_special_only {IPlayer IPlayer' : Type} (C : RamCostConstantsT)
    (RamCosts : string -> option (JSValue IPlayer))
    (RamCosts' : string -> option (JSValue IPlayer'))
    (player : IPlayer) (player' : IPlayer') (keys : list string) :
  forallb (isSpecial C) keys = true ->
  forall st,
    (exists st', forOf C RamCosts player keys st = Ok st')
    /\ forOf C RamCosts' player' keys st = forOf C RamCosts player keys st.
Proof.
  induction keys as [|key rest IH]; intros Hall st; simpl in *.
  - split; [eauto | reflexivity].
  - apply andb_true_iff in Hall as [Hkey Hrest]. unfold isSpecial in Hkey.
    destruct (specialKey C key) as [entry|] eqn:Hspecial; [|discriminate].
    rewrite !(loopBody_special C _ _ st key entry Hspecial).
    destruct (bool_decide (key ∈ seen st)); simpl; apply IH, Hrest.
Qed.

(** X11.  An input made of special names only never reaches the catalog:
    the call returns, with the same result for every catalog and every
    player, also for a catalog that has no namespace at all. *)
Theorem special_names_never_reach_catalog :
  forall (IPlayer : Type) (C : RamCostConstantsT)
         (RamCosts : string -> option (JSValue IPlayer))
         (player : IPlayer) (keys : list string),
    forallb (isSpecial C) keys = true ->
    (exists r, getRamCalculationForKeys C RamCosts player keys = Ok r)
    /\ (forall (IPlayer' : Type)
               (RamCosts' : string -> option (JSValue IPlayer'))
               (player' : IPlayer'),
          getRamCalculationForKeys C RamCosts' player' keys
          = getRamCalculationForKeys C RamCosts player keys).
Proof.
  intros IPlayer C RamCosts player keys Hall. split.
  - unfold getRamCalculationForKeys.
    destruct (proj1 (forOf_special_only C RamCosts RamCosts player player
                       keys Hall (mkState [baseEntry C] ∅))) as [st ->].
    simpl. eauto.
  - intros IPlayer' RamCosts' player'. unfold getRamCalculationForKeys.
    rewrite (proj2 (forOf_special_only C RamCosts RamCosts' player player'
                      keys Hall (mkState [baseEntry C] ∅))).
    reflexivity.
Qed.

Lemma special_names_never_reach_catalog_witness :
  forallb (isSpecial sampleConstants) ["window"; "hacknet"; "window"] = true
  /\ getRamCalculationForKeys sampleConstants
       (table [] : string -> option (JSValue SamplePlayer)) true
       ["window"; "hacknet"; "window"]
     = getRamCalculationForKeys sampleConstants sampleRamCosts false
         ["window"; "hacknet"; "window"].
Proof.
  split; [reflexivity|].
  apply (special_names_never_reach_catalog SamplePlayer sampleConstants
           sampleRamCosts false ["window"; "hacknet"; "window"] eq_refl).
Defined.

Lemma forOf_throws_without_first_namespace {IPlayer : Type}
    (C : RamCostConstantsT) (RamCosts : string -> option (JSValue IPlayer))
    (player : IPlayer) (key : string) (keys : list string) :
  isObject (RamCostsAt RamCosts "bladeburner") = false ->
  specialKey C key = None ->
  In key keys ->
  forall st,
    (forall k, k ∈ seen st -> specialKey C k <> None) ->
    exists message, forOf C RamCosts player keys st = Throw (TypeError message).
Proof.
  intros Hmissing Hordinary.
  induction keys as [|k rest IH]; intros Hin st Hseen; [destruct Hin|].
  simpl. destruct (specialKey C k) as [entry|] eqn:Hspecial.
  - rewrite (loopBody_special C RamCosts player st k entry Hspecial).
    assert (Hrest : In key rest).
    { destruct Hin as [->|Hin]; [congruence | exact Hin]. }
    destruct (bool_decide (k ∈ seen st)); simpl; apply IH; try assumption.
    intros k' Hk'. simpl in Hk'.
    apply elem_of_union in Hk' as [Hk'|Hk']; [apply Hseen, Hk'|].
    apply elem_of_singleton in Hk' as ->. congruence.
  - assert (Hunseen : k ∉ seen st).
    { intros Hk. apply (Hseen k Hk). exact Hspecial. }
    rewrite (loopBody_unseen C RamCosts player st k Hunseen), Hspecial.
    unfold resolve, namespaces. cbn [scanNamespaces].
    destruct (RamCostsAt RamCosts "bladeburner"); try discriminate Hmissing;
      simpl; eauto.
Qed.

(** X12.  When [RamCosts.bladeburner] is not an object, every input that
    holds a name that is not special makes the call throw a [TypeError]:
    the scan applies [in] to it before anything else. *)
Theorem missing_first_namespace_throws :
  forall (IPlayer : Type) (C : RamCostConstantsT)
         (RamCosts : string -> option (JSValue IPlayer))
         (player : IPlayer) (keys : list string) (key : string),
    isObject (RamCostsAt RamCosts "bladeburner") = false ->
    In key keys ->
    specialKey C key = None ->
    exists message,
      getRamCalculationForKeys C RamCosts player keys
      = Throw (TypeError message).
Proof.
  intros IPlayer C RamCosts player keys key Hmissing Hin Hordinary.
  unfold getRamCalculationForKeys.
  destruct (forOf_throws_without_first_namespace C RamCosts player key keys
              Hmissing Hordinary Hin (mkState [baseEntry C] ∅))
    as [message ->].
  - intros k Hk. simpl in Hk. set_solver.
  - exists message. reflexivity.
Qed.

Lemma missing_first_namespace_throws_witness :
  isObject (RamCostsAt (table [("hack", JSNumber 0.1)]
                          : string -> option (JSValue SamplePlayer))
              "bladeburner") = false
  /\ In "hack" ["window"; "hack"]
  /\ specialKey sampleConstants "hack" = None
  /\ exists message,
       getRamCalculationForKeys sampleConstants
         (table [("hack", JSNumber 0.1)]
            : string -> option (JSValue SamplePlayer))
         true ["window"; "hack"]
       = Throw (TypeError message).
Proof.
  split; [reflexivity|]. split; [right; left; reflexivity|].
  split; [reflexivity|].
  apply (missing_first_namespace_throws SamplePlayer sampleConstants
           (table [("hack", JSNumber 0.1)]) true ["window"; "hack"] "hack"
           eq_refl (or_intror (or_introl eq_refl)) eq_refl).
Defined.

(** X13.  The scan stops at the first namespace that has the name: when
    the namespaces before it are objects without the name, the name is
    resolved against it, whatever stands under the later namespaces, even
    nothing. *)
Theorem scan_stops_at_first_hit :
  forall (IPlayer : Type) (RamCosts : string -> option (JSValue IPlayer))
         (key namespace : string) (before after : list string),
    namespaces = (before ++ namespace :: after)%list ->
    (forall other, In other before ->
                   isObject (RamCostsAt RamCosts other) = true
                   /\ hasKey RamCosts key other = false) ->
    hasKey RamCosts key namespace = true ->
    resolve RamCosts key
    = Ok (memberOf RamCosts namespace key,
          String.append namespace (String.append "." key)).
Proof.
  intros IPlayer RamCosts key namespace before after Hsplit Hbefore Hhit.
  unfold resolve. rewrite Hsplit.
  rewrite (scanNamespaces_first_hit RamCosts key namespace before after
             Hbefore Hhit).
  reflexivity.
Qed.

Lemma scan_stops_at_first_hit_witness :
  catalogShape partialRamCosts = false
  /\ resolve partialRamCosts "attempt"
     = Ok (JSNumber 10, "codingcontract.attempt")
  /\ getRamCalculationForKeys sampleConstants partialRamCosts true ["attempt"]
     = Ok (RamCalculation.mk (1.6 + 10)%float
             (Some [RamUsageEntry.mk RamUsageEntry.misc "baseCost" 1.6;
                    RamUsageEntry.mk RamUsageEntry.fn
                      "codingcontract.attempt" 10])).
Proof.
  split; [reflexivity|]. split; [|vm_compute; reflexivity].
  apply (scan_stops_at_first_hit SamplePlayer partialRamCosts "attempt"
           "codingcontract" ["bladeburner"]
           ["stanek"; "gang"; "sleeve"; "stock"; "ui"] eq_refl).
  - intros other [<-|[]]. split; reflexivity.
  - reflexivity.
Defined.

(** X14.  A name that is not special and resolves to a number that is not
    above zero (zero, a negative number or NaN) leaves no trace: the
    result is the one of the input without it. *)
Theorem fixed_cost_not_above_zero_dropped :
  forall (IPlayer : Type) (C : RamCostConstantsT)
         (RamCosts : string -> option (JSValue IPlayer)) (player : IPlayer)
         (key name : string) (n : float) (before after : list string),
    specialKey C key = None ->
    resolve RamCosts key = Ok (JSNumber n, name) ->
    (0 <? n)%float = false ->
    getRamCalculationForKeys C RamCosts player (before ++ key :: after)
    = getRamCalculationForKeys C RamCosts player (before ++ after).
Proof.
  intros IPlayer C RamCosts player key name n before after
         Hspecial Hresolve Hcost.
  apply (silent_key_removed C RamCosts player key (JSNumber n) name n);
    try assumption. reflexivity.
Qed.

Lemma fixed_cost_not_above_zero_dropped_witness :
  specialKey sampleConstants "sprintf" = None
  /\ resolve sampleRamCosts "sprintf"
     = Ok (JSNumber 0 : JSValue SamplePlayer, "sprintf")
  /\ (0 <? 0)%float = false
  /\ getRamCalculationForKeys sampleConstants sampleRamCosts true
       (["hack"] ++ "sprintf" :: ["buy"])
     = getRamCalculationForKeys sampleConstants sampleRamCosts true
         (["hack"] ++ ["buy"]).
Proof.
  do 3 (split; [reflexivity|]).
  apply (fixed_cost_not_above_zero_dropped SamplePlayer sampleConstants
           sampleRamCosts true "sprintf" "sprintf" 0%float ["hack"] ["buy"]
           eq_refl eq_refl eq_refl).
Defined.

(** X16.  A name that is not special and that no namespace and not the
    default mapping holds, and a name whose cost value is neither a number
    nor a function, leave no trace: the result, or the error, is the one
    of the input without the name, wherever the name stands. *)
Theorem absent_or_malformed_name_costs_nothing :
  forall (IPlayer : Type) (C : RamCostConstantsT)
         (RamCosts : string -> option (JSValue IPlayer)) (player : IPlayer)
         (key : string) (before after : list string),
    specialKey C key = None ->
    ((forall namespace, In namespace namespaces ->
                        isObject (RamCostsAt RamCosts namespace) = true
                        /\ hasKey RamCosts key namespace = false) ->
     RamCosts key = None ->
     getRamCalculationForKeys C RamCosts player (before ++ key :: after)
     = getRamCalculationForKeys C RamCosts player (before ++ after))
    /\ (forall v name,
          resolve RamCosts key = Ok (v, name) ->
          typeof v <> "number" ->
          typeof v <> "function" ->
          getRamCalculationForKeys C RamCosts player (before ++ key :: after)
          = getRamCalculationForKeys C RamCosts player (before ++ after)).
Proof.
  intros IPlayer C RamCosts player key before after Hspecial. split.
  - intros Hnone Hdefault.
    apply (silent_key_removed C RamCosts player key JSUndefined key 0%float);
      try reflexivity; [exact Hspecial|].
    unfold resolve.
    rewrite (scanNamespaces_all_miss RamCosts key namespaces Hnone).
    cbn [bind]. unfold RamCostsAt. rewrite Hdefault. reflexivity.
  - intros v name Hresolve Hnumber Hfunction.
    apply (silent_key_removed C RamCosts player key v name 0%float);
      try assumption; try reflexivity.
    destruct v as [| | | | |[f|] props]; simpl in *;
      try reflexivity; congruence.
Qed.

Lemma absent_or_malformed_name_costs_nothing_witness :
  specialKey sampleConstants "noSuchFunction" = None
  /\ specialKey sampleConstants "heart" = None
  /\ getRamCalculationForKeys sampleConstants sampleRamCosts true
       (["hack"] ++ "noSuchFunction" :: ["getServer"])
     = getRamCalculationForKeys sampleConstants sampleRamCosts true
         (["hack"] ++ ["getServer"])
  /\ getRamCalculationForKeys sampleConstants sampleRamCosts true
       (["hack"] ++ "heart" :: ["getServer"])
     = getRamCalculationForKeys sampleConstants sampleRamCosts true
         (["hack"] ++ ["getServer"]).
Proof.
  split; [reflexivity|]. split; [reflexivity|]. split.
  - apply (proj1 (absent_or_malformed_name_costs_nothing SamplePlayer
                    sampleConstants sampleRamCosts true "noSuchFunction"
                    ["hack"] ["getServer"] eq_refl)); [|reflexivity].
    intros namespace Hin. simpl in Hin.
    repeat (destruct Hin as [<-|Hin]; [split; reflexivity|]). destruct Hin.
  - apply (proj2 (absent_or_malformed_name_costs_nothing SamplePlayer
                    sampleConstants sampleRamCosts true "heart"
                    ["hack"] ["getServer"] eq_refl)
             (plainObject [("break", JSNumber 0)]) "heart");
      [reflexivity | discriminate | discriminate].
Defined.
